(** * Radar ingestion and rendering pipeline

    A shallow embedding of the radar display component
    (src/app/modules/radar/radar-display.component.ts), of its previous
    revision (the wedge renderer that paints each spoke on arrival), of the
    map layer's legend expansion (RadarLayerComponent in app.component.ts)
    and of the protocol client (src/app/modules/radar/radar.service.ts).

    Conventions.
    - A JavaScript [number] that carries geometry (angles, radii, ranges) is
      idealised as a real number; a [number] that is printed (range labels)
      is an IEEE binary64 float, which is what the engine computes with.
    - Integer-valued numbers that index arrays (spoke angles, legend slots,
      bin counts) are [Z] or [nat].
    - A legend is a finite map over its own keys, which are numbers (no
      inherited member has such a name).  The discovery response is read
      under a string of the caller's: its lookup also finds the members
      every object inherits.  Its entries are typed as the source
      declares them ([RadarServerInfo]).
    - The browser is modelled by what the component asks of it: canvas calls
      are collected as a list of operations, [requestAnimationFrame] and
      [setTimeout] as queues held next to the component state; what the
      constructor of a socket answers to an address is an input of the
      call that asks for it. *)

From Stdlib Require Import ZArith List String Ascii Reals Lra Lia Floats.
From Stdlib Require Import DecimalString.
From Stdlib.Strings Require Import Byte.
From stdpp Require Import gmap list.

Local Open Scope Z_scope.

(** ** JavaScript primitives used by the sources *)

Module Js.

(** A channel of a colour, as [parseInt] yields it: an integer, or [None]
    for [NaN]. *)
Abbreviation channel := (option Z).

Definition hexDigit (c : ascii) : option Z :=
  let n := Z.of_nat (nat_of_ascii c) in
  if (48 <=? n) && (n <=? 57) then Some (n - 48)
  else if (97 <=? n) && (n <=? 102) then Some (n - 87)
  else if (65 <=? n) && (n <=? 70) then Some (n - 55)
  else None.

(** ASCII white space and line terminators, which [parseInt] skips. *)
Definition isSpace (c : ascii) : bool :=
  let n := Z.of_nat (nat_of_ascii c) in
  (n =? 32) || ((9 <=? n) && (n <=? 13)).

Fixpoint skipSpace (s : string) : string :=
  match s with
  | String c r => if isSpace c then skipSpace r else s
  | EmptyString => s
  end.

(** The longest prefix of hexadecimal digits, read most significant
    first; [acc] is [None] as long as no digit was read. *)
Fixpoint hexDigits (s : string) (acc : option Z) : option Z :=
  match s with
  | String c r =>
      match hexDigit c with
      | Some d => hexDigits r (Some (16 * default 0 acc + d))
      | None => acc
      end
  | EmptyString => acc
  end.

Definition stripSign (s : string) : Z * string :=
  match s with
  | String "-"%char r => (-1, r)
  | String "+"%char r => (1, r)
  | _ => (1, s)
  end.

Definition strip0x (s : string) : string :=
  match s with
  | String "0"%char (String "x"%char r) => r
  | String "0"%char (String "X"%char r) => r
  | _ => s
  end.

(** [parseInt(s, 16)]. *)
Definition parseInt16 (s : string) : channel :=
  let '(sign, body) := stripSign (skipSpace s) in
  match hexDigits (strip0x body) None with
  | Some z => Some (sign * z)
  | None => None
  end.

(** [a[i] = v] on a JavaScript array: an index past the end extends the
    array, the slots in between reading as [hole]. *)
Definition arraySet {A : Type} (hole : A) (i : nat) (v : A) (a : list A)
  : list A :=
  if (i <? length a)%nat then <[i := v]> a
  else a ++ replicate (i - length a) hole ++ [v].

(** The integer part toward zero. *)
Definition trunc (x : R) : Z :=
  if Rle_dec 0 x then Int_part x else - Int_part (- x).

(** [x % y]: the dividend less the divisor times the truncated quotient,
    so that the remainder has the sign of the dividend.  (For [y = 0] the
    engine yields [NaN]; the components only divide by the bin count.) *)
Definition rem (x y : R) : R := (x - y * IZR (trunc (x / y)))%R.

(** *** Printed numbers: IEEE binary64

    A finite float is [(-1)^s * m * 2^e]; the functions below read that
    decomposition and compute in exact integer arithmetic. *)

Definition decimal (n : Z) : string :=
  NilZero.string_of_uint (N.to_uint (Z.to_N n)).

(** The float of an integer of magnitude at most [2^53] (exact). *)
Definition ofZ (z : Z) : float :=
  let a := PrimFloat.of_uint63 (Uint63.of_Z (Z.abs z)) in
  if z <? 0 then PrimFloat.opp a else a.

(** [floor (v + offset/2)] for the finite value [v = (-1)^s m 2^e] with
    [e < 0]; [offset] is 0 for [Math.floor] and 1 for [Math.round]. *)
Definition floorHalves (s : bool) (m : positive) (e : Z) (offset : Z) : Z :=
  let k := - e in
  let v2 := 2 * (if s then Z.neg m else Z.pos m) in
  (v2 + offset * 2 ^ k) / 2 ^ (k + 1).

(** [Math.floor]. *)
Definition floor (x : float) : float :=
  match Prim2SF x with
  | S754_finite s m e =>
      if 0 <=? e then x else ofZ (floorHalves s m e 0)
  | _ => x
  end.

(** [Math.round]: the nearest integer, a tie going up; a result of zero
    keeps the sign of the argument. *)
Definition round (x : float) : float :=
  match Prim2SF x with
  | S754_finite s m e =>
      if 0 <=? e then x
      else
        let z := floorHalves s m e 1 in
        if (z =? 0) && s then PrimFloat.opp PrimFloat.zero else ofZ z
  | _ => x
  end.

(** Does the integer [c] round to the float [m * 2^e]?  The comparison
    is carried out on multiples of a quarter of the unit in the last
    place; the ends of the interval belong to it when [m] is even. *)
Definition roundsTo (m : positive) (e : Z) (c : Z) : bool :=
  let t := Z.max 0 (- e) in
  let ulp := 2 ^ (e + t + 2) in
  let v := Z.pos m * ulp in
  let c' := c * 2 ^ (t + 2) in
  let lo := v - (if Z.pos m =? 2 ^ 52 then ulp / 4 else ulp / 2) in
  let hi := v + ulp / 2 in
  if Z.even (Z.pos m) then (lo <=? c') && (c' <=? hi)
  else (lo <? c') && (c' <? hi).

Definition digitCount (n : Z) : Z := Z.of_nat (String.length (decimal n)).

(** The integer with the fewest significant digits that rounds to the
    float of value [v = m * 2^e]: with [k] significant digits, the two
    neighbours of [v] are tried, the nearer first. *)
Fixpoint shortest (fuel : nat) (k : Z) (m : positive) (e : Z) (v : Z) : Z :=
  match fuel with
  | O => v
  | S fuel' =>
      let p := 10 ^ (digitCount v - k) in
      let lo := v / p * p in
      let hi := lo + p in
      let okLo := roundsTo m e lo in
      let okHi := roundsTo m e hi in
      let nearerLo :=
        (v - lo <? hi - v) || ((v - lo =? hi - v) && Z.even (v / p)) in
      if okLo && (nearerLo || negb okHi) then lo
      else if okHi then hi
      else shortest fuel' (k + 1) m e v
  end.

Fixpoint stripZeros (fuel : nat) (n : Z) : Z :=
  match fuel with
  | O => n
  | S fuel' =>
      if (n =? 0) || negb (n mod 10 =? 0) then n
      else stripZeros fuel' (n / 10)
  end.

(** The digits of a positive integer as the engine prints them: plain
    up to 21 digits, with an exponent beyond. *)
Definition printDigits (c : Z) : string :=
  let n := digitCount c in
  if n <=? 21 then decimal c
  else
    match decimal (stripZeros 400 c) with
    | String d EmptyString =>
        String d EmptyString ++ "e+" ++ decimal (n - 1)
    | String d rest =>
        String d EmptyString ++ "." ++ rest ++ "e+" ++ decimal (n - 1)
    | EmptyString => EmptyString
    end.

(** [String(x)] for a float that is [NaN], infinite or integer-valued,
    which is all the label formatter prints through a template. *)
Definition toString (x : float) : string :=
  match Prim2SF x with
  | S754_nan => "NaN"
  | S754_infinity s => if s then "-Infinity" else "Infinity"
  | S754_zero _ => "0"
  | S754_finite s m e =>
      let v := if 0 <=? e then Z.pos m * 2 ^ e else Z.pos m / 2 ^ (- e) in
      (if s then "-" else "") ++ printDigits (shortest 17 1 m e v)
  end.

(** [x.toFixed(1)]: the integer [n] nearest to [10 * |x|], a tie going
    up, printed with the point before its last digit. *)
Definition toFixed1 (x : float) : string :=
  match Prim2SF x with
  | S754_nan => "NaN"
  | S754_zero _ => "0.0"
  | S754_infinity _ => toString x
  | S754_finite s m e =>
      if 10 ^ 21 <=? (if 0 <=? e then Z.pos m * 2 ^ e else 0)
      then toString x
      else
        let n :=
          if 0 <=? e then 10 * Z.pos m * 2 ^ e
          else (20 * Z.pos m + 2 ^ (- e)) / 2 ^ (- e + 1) in
        (if s then "-" else "")
          ++ decimal (n / 10) ++ "." ++ decimal (n mod 10)
  end.

End Js.

(** ** Data shared by the display component and the protocol client *)

Record RadarSpoke := mkSpoke {
  angle : Z;
  bearing : option R;
  range : R;
  data : list byte
}.

Record LegendEntry := mkLegendEntry { color : string }.

Record RadarConfig := mkConfig {
  spokes : Z;
  maxSpokeLen : Z;
  legend : gmap nat LegendEntry;
  cfg_range : R
}.

(** The operations the component performs on the radar canvas context. *)
Inductive CanvasOp :=
| ClearRect (x y w h : R)
| Save
| Restore
| Translate (x y : R)
| Rotate (a : R)
| FillStyle (rgba : list Js.channel)
| FillRect (x y w h : R).

(** [hexToRGBA]: the channels of a colour string; the first character
    (the hash sign) is skipped, every following pair of characters is read
    as a hexadecimal number, and a colour of fewer than four channels is
    padded, the fourth channel with 255 and the others with 0.  The method
    is the same in every component that has it. *)
Fixpoint hexPairs (fuel : nat) (s : string) : list Js.channel :=
  match fuel, s with
  | S fuel', String a (String b r) =>
      Js.parseInt16 (String a (String b EmptyString)) :: hexPairs fuel' r
  | S _, String a EmptyString =>
      [Js.parseInt16 (String a EmptyString)]
  | _, _ => []
  end.

Fixpoint padRGBA (fuel : nat) (rgba : list Js.channel) : list Js.channel :=
  match fuel with
  | S fuel' =>
      if (length rgba <? 4)%nat
      then padRGBA fuel'
             (rgba ++ [Some (if (length rgba =? 3)%nat then 255 else 0)])
      else rgba
  | O => rgba
  end.

Definition hexToRGBA (hex : string) : list Js.channel :=
  let body := match hex with String _ r => r | EmptyString => EmptyString end in
  padRGBA 4 (hexPairs (String.length body) body).

Definition transparent : list Js.channel := [Some 0; Some 0; Some 0; Some 0].

(** The loop shared by both [expandLegend] methods: slot [i] of the table
    is the parsed colour of [legend[i]] when the sparse legend has it, and
    the transparent colour otherwise, for [i] from 0 to 255. *)
Definition legendSlot (legend : gmap nat LegendEntry) (i : nat)
  : list Js.channel :=
  match legend !! i with
  | Some e => hexToRGBA (color e)
  | None => transparent
  end.

Definition legendTable (legend : gmap nat LegendEntry)
  : list (list Js.channel) :=
  legendSlot legend <$> seq 0 256.

(** [formatRange], the label of a range ring; the same in every revision
    of the display component. *)
Definition formatRange (rangeInMeters : float) : string :=
  if PrimFloat.leb 1852 rangeInMeters then
    let nm := PrimFloat.div rangeInMeters 1852 in
    if PrimFloat.eqb nm (Js.floor nm)
    then (Js.toString nm ++ " nm")%string
    else (Js.toFixed1 nm ++ " nm")%string
  else if PrimFloat.leb 1000 rangeInMeters then
    (Js.toFixed1 (PrimFloat.div rangeInMeters 1000) ++ " km")%string
  else
    (Js.toString (Js.round rangeInMeters) ++ " m")%string.

(** ** The display component (current revision) *)

Module Display.

Record Bounds := mkBounds { north : R; south : R; east : R; west : R }.

Record RadarDisplayMode := mkMode {
  overlay : bool;
  centerPosition : option (R * R);
  mapBounds : option Bounds;
  mapZoom : option R;
  pixelsPerMeter : option R
}.

Record Component := mkComponent {
  width : R;
  height : R;
  boatHeading : R;
  displayMode : RadarDisplayMode;
  centerX : R;
  centerY : R;
  maxRadius : R;
  config : option RadarConfig;
  legendRGBA : list (list Js.channel);          (* [this.legend] *)
  spokeDataBuffer : gmap Z (list byte);
  pendingRender : bool;
  frameRequests : nat   (* render callbacks handed to requestAnimationFrame *)
}.

Definition RANGE_SCALE : R := 0.9%R.

Definition set_geometry (c : Component) (cx cy mr : R) : Component :=
  mkComponent (width c) (height c) (boatHeading c) (displayMode c)
    cx cy mr (config c) (legendRGBA c) (spokeDataBuffer c)
    (pendingRender c) (frameRequests c).

Definition set_config (c : Component) (cfg : RadarConfig) : Component :=
  mkComponent (width c) (height c) (boatHeading c) (displayMode c)
    (centerX c) (centerY c) (maxRadius c) (Some cfg) (legendRGBA c)
    (spokeDataBuffer c) (pendingRender c) (frameRequests c).

Definition set_legend (c : Component) (l : list (list Js.channel))
  : Component :=
  mkComponent (width c) (height c) (boatHeading c) (displayMode c)
    (centerX c) (centerY c) (maxRadius c) (config c) l
    (spokeDataBuffer c) (pendingRender c) (frameRequests c).

Definition set_buffer (c : Component) (b : gmap Z (list byte)) : Component :=
  mkComponent (width c) (height c) (boatHeading c) (displayMode c)
    (centerX c) (centerY c) (maxRadius c) (config c) (legendRGBA c)
    b (pendingRender c) (frameRequests c).

Definition set_pending (c : Component) (p : bool) : Component :=
  mkComponent (width c) (height c) (boatHeading c) (displayMode c)
    (centerX c) (centerY c) (maxRadius c) (config c) (legendRGBA c)
    (spokeDataBuffer c) p (frameRequests c).

Definition set_frameRequests (c : Component) (n : nat) : Component :=
  mkComponent (width c) (height c) (boatHeading c) (displayMode c)
    (centerX c) (centerY c) (maxRadius c) (config c) (legendRGBA c)
    (spokeDataBuffer c) (pendingRender c) n.

Definition set_displayMode (c : Component) (m : RadarDisplayMode)
  : Component :=
  mkComponent (width c) (height c) (boatHeading c) m
    (centerX c) (centerY c) (maxRadius c) (config c) (legendRGBA c)
    (spokeDataBuffer c) (pendingRender c) (frameRequests c).

(** [expandLegend]: the shared table, then the fourth channel of slot 0
    is overwritten with 255 ("make background color visible"). *)
Definition expandLegend (legend : gmap nat LegendEntry)
  : list (list Js.channel) :=
  let table := legendTable legend in
  match table !! 0%nat with
  | Some c0 => <[0%nat := Js.arraySet None 3 (Some 255) c0]> table
  | None => table
  end.

(** A number is truthy when it is not zero. *)
Definition nonzero (r : R) : bool :=
  if Req_dec_T r 0%R then false else true.

Definition updateCenterAndRadius (c : Component) : Component :=
  let centred :=
    set_geometry c (width c / 2) (height c / 2)
      (Rmin (width c / 2) (height c / 2) * RANGE_SCALE) in
  if overlay (displayMode c) then centred
  else
    match centerPosition (displayMode c), mapBounds (displayMode c),
          pixelsPerMeter (displayMode c) with
    | Some (lon, lat), Some mb, Some ppm =>
        if nonzero ppm then
          let lonRange := (east mb - west mb)%R in
          let latRange := (north mb - south mb)%R in
          set_geometry c
            ((lon - west mb) / lonRange * width c)
            ((north mb - lat) / latRange * height c)
            (match config c with
             | Some cfg => cfg_range cfg * ppm * RANGE_SCALE
             | None => Rmin (width c) (height c) / 4
             end)
        else centred
    | _, _, _ => centred
    end%R.

(** [new Array(n)] raises a RangeError unless [n] is an array length. *)
Definition validArrayLength (n : Z) : bool := (0 <=? n) && (n <? 2 ^ 32).

(** [setRadarConfig].  The second component is [false] when the method
    ends in the RangeError of [new Array(config.spokes)]; the fields
    assigned before that point keep their new values.  ([drawBackground]
    paints the other canvas and assigns no field.) *)
Definition setRadarConfig (c : Component) (cfg : RadarConfig)
  : Component * bool :=
  let c1 := set_config c cfg in
  let c2 := set_legend c1 (expandLegend (legend cfg)) in
  let c3 := updateCenterAndRadius c2 in
  if validArrayLength (spokes cfg) then (set_buffer c3 ∅, true)
  else (c3, false).

Definition updateDisplayMode (c : Component) (m : RadarDisplayMode)
  : Component :=
  updateCenterAndRadius (set_displayMode c m).

(** The guard that opens both [drawSpoke] and [render]. *)
Definition ready (c : Component) : bool :=
  match config c, legendRGBA c with
  | Some _, _ :: _ => true
  | _, _ => false
  end.

(** [drawSpoke]: store a copy of the samples under the spoke's angle and
    request a render unless one is pending. *)
Definition drawSpoke (c : Component) (s : RadarSpoke) : Component :=
  if ready c then
    let c1 := set_buffer c (<[angle s := data s]> (spokeDataBuffer c)) in
    if pendingRender c1 then c1
    else set_frameRequests (set_pending c1 true) (S (frameRequests c1))
  else c.

(** [ngOnInit]: the fields as declared, then [initializeCanvases]. *)
Definition ngOnInit (w h heading : R) (m : RadarDisplayMode) : Component :=
  updateCenterAndRadius
    (mkComponent w h heading m 0 0 0 None [] ∅ false 0).

(** [Math.min(value, 255)] as an index into the colour table. *)
Definition colorIndex (v : byte) : nat :=
  N.to_nat (N.min (Byte.to_N v) 255).

(** [color[3] > 0]. *)
Definition visible (rgba : list Js.channel) : bool :=
  match rgba !! 3%nat with
  | Some (Some a) => 0 <? a
  | _ => false
  end.

(** The constants that open [renderSingleSpoke]: the bin rotated by three
    quarters of the sweep, its angle in radians, the heading in radians
    and the angle the canvas is rotated by. *)
Definition adjustedAngle (cfg : RadarConfig) (spokeAngle : Z) : R :=
  Js.rem (IZR spokeAngle + IZR (spokes cfg) * 3 / 4) (IZR (spokes cfg)).

Definition angleRad (cfg : RadarConfig) (spokeAngle : Z) : R :=
  (2 * PI * adjustedAngle cfg spokeAngle / IZR (spokes cfg))%R.

Definition headingRad (c : Component) : R := (boatHeading c * PI / 180)%R.

Definition finalAngle (c : Component) (cfg : RadarConfig) (spokeAngle : Z)
  : R :=
  (angleRad cfg spokeAngle - headingRad c)%R.

Definition pixelsPerDataPoint (c : Component) (spokeData : list byte) : R :=
  (maxRadius c * RANGE_SCALE / INR (length spokeData))%R.

(** [const scaledPixelsPerDataPoint = pixelsPerDataPoint;] *)
Definition scaledPixelsPerDataPoint (c : Component) (spokeData : list byte)
  : R :=
  pixelsPerDataPoint c spokeData.

(** The loop over the samples of one spoke, from sample [i] on.  The
    flag is [false] when a sample has no colour in the table, where the
    method ends in a TypeError. *)
Fixpoint paintSamples (table : list (list Js.channel)) (scaled : R)
    (i : nat) (samples : list byte) : list CanvasOp * bool :=
  match samples with
  | [] => ([], true)
  | v :: rest =>
      match table !! colorIndex v with
      | None => ([], false)
      | Some rgba =>
          let here :=
            if visible rgba
            then [FillStyle rgba;
                  FillRect (INR i * scaled) (-0.5) scaled 1]
            else [] in
          let '(ops, ok) := paintSamples table scaled (S i) rest in
          (here ++ ops, ok)
      end
  end.

Definition renderSingleSpoke (c : Component) (cfg : RadarConfig)
    (spokeAngle : Z) (spokeData : list byte) : list CanvasOp * bool :=
  let '(ops, ok) :=
    paintSamples (legendRGBA c) (scaledPixelsPerDataPoint c spokeData)
      0 spokeData in
  ([Save; Translate (centerX c) (centerY c);
    Rotate (finalAngle c cfg spokeAngle)]
     ++ ops ++ (if ok then [Restore] else []), ok).

(** The loop of [render] over the angles still to visit. *)
Fixpoint renderSpokes (c : Component) (cfg : RadarConfig) (angles : list Z)
  : list CanvasOp * bool :=
  match angles with
  | [] => ([], true)
  | a :: rest =>
      match spokeDataBuffer c !! a with
      | None => renderSpokes c cfg rest
      | Some spokeData =>
          let '(ops, ok) := renderSingleSpoke c cfg a spokeData in
          if ok then
            let '(ops', ok') := renderSpokes c cfg rest in
            (ops ++ ops', ok')
          else (ops, false)
      end
  end.

Inductive RenderResult :=
| Skipped                          (* the guard returned at once *)
| Pass (ops : list CanvasOp)       (* a full pass over the buffer *)
| Crashed (ops : list CanvasOp).   (* the pass ended in an exception *)

(** [render]. *)
Definition render (c : Component) : Component * RenderResult :=
  match config c with
  | Some cfg =>
      if ready c then
        let '(ops, ok) := renderSpokes c cfg (seqZ 0 (spokes cfg)) in
        let pass := ClearRect 0 0 (width c) (height c) :: ops in
        if ok then (set_pending c false, Pass pass)
        else (c, Crashed pass)
      else (set_pending c false, Skipped)
  | None => (set_pending c false, Skipped)
  end.

(** A display refresh tick: the browser takes the callbacks requested so
    far and runs them in order; each one is [() => this.render()]. *)
Fixpoint runFrameCallbacks (n : nat) (c : Component)
  : Component * list RenderResult :=
  match n with
  | O => (c, [])
  | S k =>
      let '(c1, r) := render c in
      let '(c2, rs) := runFrameCallbacks k c1 in
      (c2, r :: rs)
  end.

Definition animationFrame (c : Component)
  : Component * list RenderResult :=
  runFrameCallbacks (frameRequests c) (set_frameRequests c 0).

(** A run of the component: spokes delivered between refresh ticks. *)
Definition drawSpokes (c : Component) (ss : list RadarSpoke) : Component :=
  foldl drawSpoke c ss.

Definition set_boatHeading (c : Component) (h : R) : Component :=
  mkComponent (width c) (height c) h (displayMode c)
    (centerX c) (centerY c) (maxRadius c) (config c) (legendRGBA c)
    (spokeDataBuffer c) (pendingRender c) (frameRequests c).

(** What happens to a component after [ngOnInit]: its host hands it a
    configuration, a display mode, a heading or a spoke, or the browser
    starts a frame. *)
Inductive Event :=
| SetRadarConfig (cfg : RadarConfig)
| UpdateDisplayMode (m : RadarDisplayMode)
| SetBoatHeading (h : R)
| DrawSpoke (s : RadarSpoke)
| AnimationFrame.

Definition step (c : Component) (e : Event) : Component :=
  match e with
  | SetRadarConfig cfg => fst (setRadarConfig c cfg)
  | UpdateDisplayMode m => updateDisplayMode c m
  | SetBoatHeading h => set_boatHeading c h
  | DrawSpoke s => drawSpoke c s
  | AnimationFrame => fst (animationFrame c)
  end.

Definition run (c : Component) (es : list Event) : Component :=
  foldl step c es.

End Display.

(** ** The previous revision of the display component

    [drawSpoke] paints the spoke on arrival; there is no sweep buffer. The
    fields are those of the current revision that the method reads. *)

Module Legacy.

Import Display.

(** [this.config.range ? spoke.range / this.config.range : 1] *)
Definition rangeScale (cfg : RadarConfig) (s : RadarSpoke) : R :=
  if nonzero (cfg_range cfg) then (range s / cfg_range cfg)%R else 1%R.

Definition scaledPixelsPerDataPoint (c : Component) (cfg : RadarConfig)
    (s : RadarSpoke) : R :=
  (pixelsPerDataPoint c (data s) * rangeScale cfg s)%R.

Inductive Outcome :=
| NoOp                            (* the guard returned at once *)
| Painted (ops : list CanvasOp)
| Raised.                         (* an exception before any canvas call *)

(** [drawSpoke].  [createImageData] refuses a width of zero, and the
    loop that fills the image data reads the colour of every sample
    before the canvas is touched. *)
Definition drawSpoke (c : Component) (s : RadarSpoke) : Outcome :=
  match config c with
  | Some cfg =>
      if ready c then
        match data s with
        | [] => Raised
        | _ :: _ =>
            let '(ops, ok) :=
              paintSamples (legendRGBA c)
                (scaledPixelsPerDataPoint c cfg s) 0 (data s) in
            if ok then
              Painted ([Save; Translate (centerX c) (centerY c);
                        Rotate (finalAngle c cfg (angle s))]
                         ++ ops ++ [Restore])
            else Raised
        end
      else NoOp
  | None => NoOp
  end.

End Legacy.

(** ** The map layer (RadarLayerComponent) *)

Module Layer.

(** [expandLegend]: the shared table, as it is. *)
Definition expandLegend (legend : gmap nat LegendEntry)
  : list (list Js.channel) :=
  legendTable legend.

(** [pixelsPerItem] of [renderSpokeMayaraStyle], for a radar canvas of
    the given size. *)
Definition pixelsPerItem (canvasWidth canvasHeight : R)
    (cfg : RadarConfig) (s : RadarSpoke) : R :=
  let beamLength := (Rmin (canvasWidth / 2) (canvasHeight / 2) * 0.9)%R in
  let perItem := (beamLength * 0.9 / INR (length (data s)))%R in
  if Display.nonzero (cfg_range cfg) && Display.nonzero (range s)
  then (perItem * range s / cfg_range cfg)%R
  else perItem.

(** The heading the layer keeps in its ship state: [ngOnChanges] takes the
    [heading] input, in radians, to degrees. *)
Definition shipHeading (heading : R) : R := (heading * (180 / PI))%R.

(** [finalAngle] of [renderSpokeMayaraStyle] and of [clearSpokeArea], for
    the heading of the ship state. *)
Definition finalAngle (cfg : RadarConfig) (stateHeading : R) (spokeAngle : Z)
  : R :=
  let adjustedAngle :=
    Js.rem (IZR spokeAngle + IZR (spokes cfg) * 3 / 4) (IZR (spokes cfg)) in
  let angleRad := (2 * PI * adjustedAngle / IZR (spokes cfg))%R in
  let headingRad := (stateHeading * PI / 180)%R in
  (angleRad - headingRad)%R.

End Layer.

(** ** The protocol client (RadarService) *)

Module Service.

Local Open Scope string_scope.

Record RadarServerInfo := mkInfo {
  id : string;
  name : string;
  streamUrl : string;
  controlUrl : string;
  info_spokes : Z;
  info_maxSpokeLen : Z;
  info_legend : gmap nat LegendEntry
}.

(** One value of the discovery response.  The server may repeat the
    identifier inside the value; the spread in
    [{ id: radarId, ...radars[radarId] }] then lets it win. *)
Record RadarEntry := mkEntry {
  entry_id : option string;
  entry : RadarServerInfo   (* the remaining fields; [id] is not read *)
}.

(** The parsed discovery response, in the order of [Object.keys]. *)
Definition Radars : Type := list (string * RadarEntry).

(** The entry the response itself holds under [k]. *)
Fixpoint ownProperty (radars : Radars) (k : string) : option RadarEntry :=
  match radars with
  | [] => None
  | (k', e) :: rest => if String.eqb k k' then Some e else ownProperty rest k
  end.

Definition keys (radars : Radars) : list string := map fst radars.

(** The response is a plain object: a name it does not hold is looked up
    in [Object.prototype], whose members are functions, and the prototype
    itself under [__proto__]. *)
Definition objectPrototypeNames : list string :=
  [ "constructor"; "hasOwnProperty"; "isPrototypeOf";
    "propertyIsEnumerable"; "toLocaleString"; "toString"; "valueOf";
    "__defineGetter__"; "__defineSetter__"; "__lookupGetter__";
    "__lookupSetter__"; "__proto__" ].

(** [radars[k]] as [connectToRadar] tests and spreads it: an entry of
    the response, an inherited member (truthy, with no field of a
    [RadarServerInfo] to spread) or [undefined]. *)
Inductive Found :=
| Own (e : RadarEntry)
| Inherited
| Absent.

Definition lookupRadar (radars : Radars) (k : string) : Found :=
  match ownProperty radars k with
  | Some e => Own e
  | None =>
      if existsb (String.eqb k) objectPrototypeNames then Inherited
      else Absent
  end.

(** What a [catch] clause can receive here, and its rendering inside a
    template literal. *)
Inductive Thrown :=
| ErrorObj (kind message : string)   (* an Error object of that name *)
| Text (s : string)                  (* [reject('...')] *)
| EventObj.                          (* [reject(error)] in [onerror] *)

(** [Error.prototype.toString] joins the name and the message, and
    gives the one alone when the other is empty. *)
Definition show (t : Thrown) : string :=
  match t with
  | ErrorObj kind message =>
      match kind, message with
      | EmptyString, _ => message
      | _, EmptyString => kind
      | _, _ => kind ++ ": " ++ message
      end
  | Text s => s
  | EventObj => "[object Event]"
  end.

Inductive Discovery :=
| FetchFailed (t : Thrown)      (* [fetch] or [response.json()] rejected *)
| Discovered (radars : Radars).

(** [new WebSocket(url)] as the browser answers it: the exception the
    constructor throws for this address, if any (a [SyntaxError] for an
    address it cannot parse, one with a fragment, or a scheme it does not
    take). *)
Definition WebSocketConstructor : Type := string -> option Thrown.

(** How a call of [connectToRadar] leaves its caller. *)
Inductive Outcome :=
| Returned             (* the guard returned at once *)
| Threw (t : Thrown)   (* the [catch] clause threw [t] again *)
| Awaiting             (* a socket is constructed; the call awaits it *)
| Untyped.             (* the call goes on with an inherited member in
                          the place of a [RadarServerInfo] *)

Record Socket := mkSocket {
  url : string;
  settled : bool;       (* the promise of [connectWebSocket] is settled *)
  closeCalled : bool    (* [close()] was called on it *)
}.

Inductive TimerAction :=
| Reconnect                        (* set in [onclose] *)
| ConnectTimeout (socket : nat).   (* set in [connectWebSocket] *)

Record Timer := mkTimer { due : Z; action : TimerAction }.

Record CloseEvent := mkCloseEvent { wasClean : bool; code : Z }.

Record State := mkState {
  webSocket : option nat;             (* index into [sockets] *)
  connected : bool;                   (* [connected$.value] *)
  connecting : bool;                  (* [connecting$.value] *)
  radarConfig : option RadarConfig;   (* [radarConfig$.value] *)
  currentRadar : option RadarServerInfo;
  sockets : list Socket;              (* every WebSocket constructed *)
  timers : list Timer;                (* outstanding [setTimeout]s *)
  errors : list string;               (* what [error$] emitted *)
  published : list RadarConfig        (* what [radarConfig$] emitted *)
}.

Definition initial : State :=
  mkState None false false None None [] [] [] [].

Definition set_connecting (st : State) (b : bool) : State :=
  mkState (webSocket st) (connected st) b (radarConfig st)
    (currentRadar st) (sockets st) (timers st) (errors st) (published st).

Definition set_connected (st : State) (b : bool) : State :=
  mkState (webSocket st) b (connecting st) (radarConfig st)
    (currentRadar st) (sockets st) (timers st) (errors st) (published st).

(** [this.radarConfig$.next(cfg)] *)
Definition publishConfig (st : State) (cfg : RadarConfig) : State :=
  mkState (webSocket st) (connected st) (connecting st) (Some cfg)
    (currentRadar st) (sockets st) (timers st) (errors st)
    (published st ++ [cfg]).

Definition set_currentRadar (st : State) (r : option RadarServerInfo)
  : State :=
  mkState (webSocket st) (connected st) (connecting st) (radarConfig st)
    r (sockets st) (timers st) (errors st) (published st).

Definition set_webSocket (st : State) (w : option nat) : State :=
  mkState w (connected st) (connecting st) (radarConfig st)
    (currentRadar st) (sockets st) (timers st) (errors st) (published st).

Definition set_sockets (st : State) (l : list Socket) : State :=
  mkState (webSocket st) (connected st) (connecting st) (radarConfig st)
    (currentRadar st) l (timers st) (errors st) (published st).

Definition set_timers (st : State) (l : list Timer) : State :=
  mkState (webSocket st) (connected st) (connecting st) (radarConfig st)
    (currentRadar st) (sockets st) l (errors st) (published st).

Definition emit_error (st : State) (e : string) : State :=
  mkState (webSocket st) (connected st) (connecting st) (radarConfig st)
    (currentRadar st) (sockets st) (timers st) (errors st ++ [e])
    (published st).

(** The [catch] clause of [connectToRadar]. *)
Definition connectFailed (st : State) (t : Thrown) : State :=
  emit_error (set_connecting st false)
    ("Failed to connect to radar: " ++ show t).

(** [reject(t)] on the promise of socket [k]: the first settlement wakes
    the [await] in [connectToRadar], which lands in its [catch] clause;
    a later one is ignored. *)
Definition rejectSocket (st : State) (k : nat) (t : Thrown) : State :=
  match sockets st !! k with
  | Some s =>
      if settled s then st
      else connectFailed
             (set_sockets st
                (<[k := mkSocket (url s) true (closeCalled s)]> (sockets st)))
             t
  | None => st
  end.

Definition resolveSocket (st : State) (k : nat) : State :=
  match sockets st !! k with
  | Some s =>
      set_sockets st
        (<[k := mkSocket (url s) true (closeCalled s)]> (sockets st))
  | None => st
  end.

(** [connectToRadar] up to its first [await]: [None] when the call
    returns at once, else the state in which the discovery request is
    in flight. *)
Definition connectToRadar_enter (st : State) : option State :=
  if connecting st || connected st then None
  else Some (set_connecting st true).

(** An argument is taken as given when it is a non-empty string. *)
Definition explicitId (radarId : option string) : option string :=
  match radarId with
  | Some "" => None
  | other => other
  end.

Definition notFoundMessage (radarId : string) (radars : Radars) : string :=
  "Radar " ++ radarId ++ " not found. Available radars: "
    ++ String.concat ", " (keys radars).

(** The synchronous part of [connectWebSocket], entered with a current
    radar.  When the constructor throws, the executor of the promise
    stops there and the promise is rejected with the exception: no field
    is assigned, no handler installed and no timer set.  Otherwise the
    socket is constructed and the ten-second timer is set. *)
Definition connectWebSocket (st : State) (now : Z) (r : RadarServerInfo)
    (construct : WebSocketConstructor) : State * option Thrown :=
  match construct (streamUrl r) with
  | Some t => (st, Some t)
  | None =>
      let k := length (sockets st) in
      (set_timers
         (set_webSocket
            (set_sockets st
               (sockets st ++ [mkSocket (streamUrl r) false false]))
            (Some k))
         (timers st ++ [mkTimer (now + 10000) (ConnectTimeout k)]),
       None)
  end.

(** [connectToRadar] from the discovery response on.  The entries of the
    response are typed as [RadarServerInfo]; where the lookup yields an
    inherited member instead, the call raises nothing and goes on with
    a value the typed state cannot hold: the result is then [Untyped],
    with the state as it is at the lookup. *)
Definition connectToRadar_resume (st : State) (now : Z)
    (radarId : option string) (d : Discovery)
    (construct : WebSocketConstructor) : State * Outcome :=
  match d with
  | FetchFailed t => (connectFailed st t, Threw t)
  | Discovered radars =>
      let chosen :=
        match explicitId radarId with
        | Some i => Some i
        | None => head (keys radars)
        end in
      match chosen with
      | None =>
          let t := ErrorObj "Error" "No radars available" in
          (connectFailed st t, Threw t)
      | Some i =>
          match lookupRadar radars i with
          | Absent =>
              let t := ErrorObj "Error" (notFoundMessage i radars) in
              (connectFailed st t, Threw t)
          | Inherited => (st, Untyped)
          | Own e =>
              let r := mkInfo (default i (entry_id e)) (name (entry e))
                         (streamUrl (entry e)) (controlUrl (entry e))
                         (info_spokes (entry e)) (info_maxSpokeLen (entry e))
                         (info_legend (entry e)) in
              let cfg := mkConfig (info_spokes r) (info_maxSpokeLen r)
                           (info_legend r) 1852 in
              match connectWebSocket
                      (publishConfig (set_currentRadar st (Some r)) cfg)
                      now r construct with
              | (st', Some t) => (connectFailed st' t, Threw t)
              | (st', None) => (st', Awaiting)
              end
          end
      end
  end.

(** A whole call of [connectToRadar] when nothing else happens while the
    discovery request is in flight. *)
Definition connectToRadar (st : State) (now : Z)
    (radarId : option string) (d : Discovery)
    (construct : WebSocketConstructor) : State * Outcome :=
  match connectToRadar_enter st with
  | None => (st, Returned)
  | Some st1 => connectToRadar_resume st1 now radarId d construct
  end.

(** The handlers installed on socket [k]. *)
Definition onopen (st : State) (k : nat) : State :=
  resolveSocket (set_connecting (set_connected st true) false) k.

Definition onclose (st : State) (now : Z) (ev : CloseEvent) : State :=
  let st1 := set_connecting (set_connected st false) false in
  set_timers st1 (timers st1 ++ [mkTimer (now + 5000) Reconnect]).

Definition onerror (st : State) (k : nat) : State :=
  rejectSocket
    (emit_error (set_connecting st false) "WebSocket connection error")
    k EventObj.

(** The body of a timer.  A reconnect timer calls [connectToRadar] with
    the identifier of the current radar; the result carries that
    identifier when the call got past its guard and a discovery request
    is now in flight. *)
Definition runTimer (st : State) (a : TimerAction)
  : State * option string :=
  match a with
  | Reconnect =>
      match currentRadar st with
      | Some r =>
          match connectToRadar_enter st with
          | Some st1 => (st1, Some (id r))
          | None => (st, None)
          end
      | None => (st, None)
      end
  | ConnectTimeout k =>
      if connecting st
      then (rejectSocket (set_connecting st false) k
              (Text "Connection timeout"), None)
      else (st, None)
  end.

(** The [i]-th outstanding timer fires. *)
Definition fireTimer (st : State) (i : nat) : State * option string :=
  match timers st !! i with
  | Some t => runTimer (set_timers st (delete i (timers st))) (action t)
  | None => (st, None)
  end.

(** [updateRange]. *)
Definition updateRange (st : State) (range : R) : State :=
  match radarConfig st with
  | Some currentConfig =>
      publishConfig st
        (mkConfig (spokes currentConfig) (maxSpokeLen currentConfig)
           (legend currentConfig) range)
  | None => st
  end.

(** [disconnect]. *)
Definition disconnect (st : State) : State :=
  let st1 :=
    match webSocket st with
    | Some k =>
        set_webSocket
          (match sockets st !! k with
           | Some s =>
               set_sockets st
                 (<[k := mkSocket (url s) (settled s) true]> (sockets st))
           | None => st
           end)
          None
    | None => st
    end in
  set_currentRadar (set_connecting (set_connected st1 false) false) None.

Definition isReconnect (t : Timer) : bool :=
  match action t with Reconnect => true | ConnectTimeout _ => false end.

Definition reconnectTimers (st : State) : list Timer :=
  List.filter isReconnect (timers st).

(** What happens to the client: a call of one of its methods, the
    discovery response of a call in flight (with what the browser then
    answers to the construction of the socket), an event of a socket, or
    a timer. *)
Inductive Event :=
| CallConnect (now : Z) (radarId : option string) (d : Discovery)
    (construct : WebSocketConstructor)
| EnterConnect
| ResumeConnect (now : Z) (radarId : option string) (d : Discovery)
    (construct : WebSocketConstructor)
| SocketOpen (k : nat)
| SocketClose (now : Z) (ev : CloseEvent)
| SocketError (k : nat)
| TimerFires (i : nat)
| CallUpdateRange (meters : R)
| CallDisconnect.

Definition step (st : State) (e : Event) : State :=
  match e with
  | CallConnect now radarId d construct =>
      fst (connectToRadar st now radarId d construct)
  | EnterConnect => default st (connectToRadar_enter st)
  | ResumeConnect now radarId d construct =>
      fst (connectToRadar_resume st now radarId d construct)
  | SocketOpen k => onopen st k
  | SocketClose now ev => onclose st now ev
  | SocketError k => onerror st k
  | TimerFires i => fst (fireTimer st i)
  | CallUpdateRange meters => updateRange st meters
  | CallDisconnect => disconnect st
  end.

Definition run (st : State) (es : list Event) : State := foldl step st es.

End Service.

(** * Vocabulary of the specification *)

(** The most recently processed spoke with angle [a], if any. *)
Definition latest (a : Z) (ss : list RadarSpoke) : option RadarSpoke :=
  List.find (fun s => bool_decide (angle s = a)) (rev ss).

(** The pending flag tells whether a render callback is queued. *)
Definition coherent (c : Display.Component) : Prop :=
  Display.frameRequests c = (if Display.pendingRender c then 1 else 0)%nat.

(** What every reachable component satisfies: the flag and the queue
    agree, and the colour table is empty or complete. *)
Definition wellFormed (c : Display.Component) : Prop :=
  coherent c /\
  (Display.legendRGBA c = [] \/ length (Display.legendRGBA c) = 256%nat).

(** The wedges of a render pass as the buffer determines them: for every
    bin of the configuration in increasing order, the wedge of the samples
    stored under it. *)
Definition wedges (c : Display.Component) (cfg : RadarConfig)
  : list CanvasOp :=
  flat_map
    (fun a : Z =>
       match Display.spokeDataBuffer c !! a with
       | Some d => fst (Display.renderSingleSpoke c cfg a d)
       | None => []
       end)
    (seqZ 0 (spokes cfg)).


(** Every character, and two checks that are run over all of them: a
    hexadecimal digit has a value from 0 to 15, and [parseInt] reads two
    of them as one number. *)
Definition allAscii : list ascii := map ascii_of_nat (seq 0 256).

Definition digitInRange (a : ascii) : bool :=
  match Js.hexDigit a with
  | Some v => (0 <=? v) && (v <=? 15)
  | None => true
  end.

Definition channelEq (x y : option Z) : bool :=
  match x, y with
  | Some a, Some b => a =? b
  | None, None => true
  | _, _ => false
  end.

Definition pairParses (a b : ascii) : bool :=
  match Js.hexDigit a, Js.hexDigit b with
  | Some va, Some vb =>
      channelEq (Js.parseInt16 (String a (String b EmptyString)))
        (Some (16 * va + vb))
  | _, _ => true
  end.

(** The labels checked over a run of whole numbers: [k] nautical miles
    given in metres, and [m] metres with and without a half. *)
Definition milesLabelOk (k : Z) : bool :=
  String.eqb (formatRange (Js.ofZ (1852 * k)))
    (Js.decimal k ++ " nm")%string.

Definition metresLabelOk (m : Z) : bool :=
  String.eqb (formatRange (Js.ofZ m)) (Js.decimal m ++ " m")%string
  && String.eqb (formatRange (PrimFloat.add (Js.ofZ m) 0.5))
       (Js.decimal (m + 1) ++ " m")%string.

(** A label in kilometres or in nautical miles with one decimal is right
    to half a unit of that decimal: [tenths] is the number the label
    shows, in tenths of [unit] metres. *)
Definition oneDecimal (tenths : Z) (suffix : string) : string :=
  (Js.decimal (tenths / 10) ++ "." ++ Js.decimal (tenths mod 10) ++ suffix)%string.

Definition kmLabelOk (m : Z) : bool :=
  let label := formatRange (Js.ofZ m) in
  let nearest := (m + 50) / 100 in
  existsb
    (fun tenths =>
       String.eqb label (oneDecimal tenths " km")
       && (Z.abs (m - 100 * tenths) <=? 50))
    [nearest - 1; nearest].

Definition nmLabelOk (m : Z) : bool :=
  let label := formatRange (Js.ofZ m) in
  let nearest := (10 * m + 926) / 1852 in
  existsb
    (fun tenths =>
       String.eqb label
         (if m =? 1852 * (tenths / 10)
          then (Js.decimal (tenths / 10) ++ " nm")%string
          else oneDecimal tenths " nm")
       && (Z.abs (10 * m - 1852 * tenths) <=? 926))
    [nearest - 1; nearest].

(** An integrated display whose boat sits on the north-west corner of the
    map view. *)
Definition cornerMode : Display.RadarDisplayMode :=
  Display.mkMode false (Some (10, 50)%R)
    (Some (Display.mkBounds 50 40 20 10)) None (Some 2%R).

(** The remainder in the floor convention, and the nominal angle of a bin
    as the specification writes it. *)
Definition Rmod (x y : R) : R := (x - y * IZR (Int_part (x / y)))%R.

Definition theta (spokes a : Z) : R :=
  (2 * PI * Rmod (IZR a + IZR spokes * 3 / 4) (IZR spokes) / IZR spokes)%R.

(** * Sample inputs *)

Definition overlayMode : Display.RadarDisplayMode :=
  Display.mkMode true None None None None.

Definition sampleLegend : gmap nat LegendEntry :=
  {[ 1%nat := mkLegendEntry "#ff0000" ]}.

Definition sampleConfig : RadarConfig := mkConfig 2048 1024 sampleLegend 1852.

(** A 600 by 600 component right after [ngOnInit], and the same once it
    has received [sampleConfig]. *)
Definition fresh : Display.Component := Display.ngOnInit 600 600 0 overlayMode.

Definition configured : Display.Component :=
  fst (Display.setRadarConfig fresh sampleConfig).

Definition spokeA : RadarSpoke := mkSpoke 512 None 1852 [x01; x00]%byte.
Definition spokeB : RadarSpoke := mkSpoke 512 None 3704 [x01; x01]%byte.
Definition spokeC : RadarSpoke := mkSpoke 7 None 1852 [x01]%byte.

(** A short sweep of four bins, and a spoke taken at twice the range the
    configuration displays. *)
Definition smallConfig : RadarConfig := mkConfig 4 2 sampleLegend 1852.

Definition smallDisplay : Display.Component :=
  fst (Display.setRadarConfig fresh smallConfig).

Definition farSpoke : RadarSpoke := mkSpoke 1 None 3704 [x01; x01]%byte.

(** A discovery response with one radar, and the client connected to it:
    the call at time 0, then the socket opening. *)
Definition sampleRadars : Service.Radars :=
  [("radar-0"%string,
    Service.mkEntry (Some "radar-0"%string)
      (Service.mkInfo "radar-0" "HALO" "ws://localhost:3001/v1/api/stream/radar-0"
         "ws://localhost:3001/v1/api/control/radar-0" 2048 1024 sampleLegend))].

(** A browser that takes every address, and one that takes none. *)
Definition accepting : Service.WebSocketConstructor := fun _ => None.

Definition refusing : Service.WebSocketConstructor :=
  fun address =>
    Some (Service.ErrorObj "SyntaxError"
            ("The URL '" ++ address ++ "' is invalid.")%string).

Definition connectedClient : Service.State :=
  Service.onopen
    (fst (Service.connectToRadar Service.initial 0 None
            (Service.Discovered sampleRadars) accepting))
    0.

(** A first call with the empty string for an identifier. *)
Definition emptyIdCall : Service.State * Service.Outcome :=
  Service.connectToRadar Service.initial 0 (Some ""%string)
    (Service.Discovered sampleRadars) accepting.

Definition cleanClose : Service.CloseEvent := Service.mkCloseEvent true 1000.

(** The stream closes cleanly at 1000 ms; the user connects again at
    2000 ms, and the new socket fails and closes at 3000 ms. *)
Definition twoClosures : Service.State :=
  let st1 := Service.onclose connectedClient 1000 cleanClose in
  let st2 := fst (Service.connectToRadar st1 2000 None
                    (Service.Discovered sampleRadars) accepting) in
  let st3 := Service.onerror st2 1 in
  Service.onclose st3 3000 (Service.mkCloseEvent false 1006).

(** The client of [twoClosures] while its second socket is still
    opening. *)
Definition secondAttempt : Service.State :=
  fst (Service.connectToRadar
         (Service.onclose connectedClient 1000 cleanClose) 2000 None
         (Service.Discovered sampleRadars) accepting).

(** * Properties *)

(** ** The sweep buffer *)

Section SweepBuffer.

Import Display.

Lemma drawSpoke_config c s : config (drawSpoke c s) = config c.
Proof.
  unfold drawSpoke. destruct (ready c); [|reflexivity].
  simpl. destruct (pendingRender c); reflexivity.
Qed.

Lemma drawSpoke_legend c s : legendRGBA (drawSpoke c s) = legendRGBA c.
Proof.
  unfold drawSpoke. destruct (ready c); [|reflexivity].
  simpl. destruct (pendingRender c); reflexivity.
Qed.

Lemma drawSpoke_ready c s : ready (drawSpoke c s) = ready c.
Proof. unfold ready. by rewrite drawSpoke_config, drawSpoke_legend. Qed.

Lemma drawSpoke_buffer c s :
  ready c = true ->
  spokeDataBuffer (drawSpoke c s) = <[angle s := data s]> (spokeDataBuffer c).
Proof.
  intros Hr. unfold drawSpoke. rewrite Hr. simpl.
  destruct (pendingRender c); reflexivity.
Qed.

Lemma drawSpokes_snoc c ss s :
  drawSpokes c (ss ++ [s]) = drawSpoke (drawSpokes c ss) s.
Proof. unfold drawSpokes. by rewrite foldl_app. Qed.

Lemma drawSpokes_ready c ss : ready (drawSpokes c ss) = ready c.
Proof.
  induction ss as [|s ss IH] using rev_ind; [reflexivity|].
  by rewrite drawSpokes_snoc, drawSpoke_ready.
Qed.



Lemma latest_snoc a ss s :
  latest a (ss ++ [s]) = if decide (angle s = a) then Some s else latest a ss.
Proof.
  unfold latest. rewrite rev_app_distr. simpl.
  destruct (decide (angle s = a)) as [E|E].
  - by rewrite bool_decide_eq_true_2.
  - by rewrite bool_decide_eq_false_2.
Qed.


(** C1.  Once the component has its configuration (the guard of
    [drawSpoke] lets spokes through), after any sequence of spokes the
    sweep buffer holds under every angle the samples of the most recently
    processed spoke with that angle, whatever was stored there before;
    an angle that no spoke of the sequence carries keeps its entry. *)
Theorem sweep_buffer_last_write_wins (c : Component) (ss : list RadarSpoke) :
  ready c = true ->
  forall a : Z,
    spokeDataBuffer (drawSpokes c ss) !! a =
      match latest a ss with
      | Some s => Some (data s)
      | None => spokeDataBuffer c !! a
      end.
Proof.
  intros Hr a. induction ss as [|s ss IH] using rev_ind; [reflexivity|].
  rewrite drawSpokes_snoc, latest_snoc.
  rewrite drawSpoke_buffer by (by rewrite drawSpokes_ready).
  destruct (decide (angle s = a)) as [->|Hne].
  - by rewrite lookup_insert_eq.
  - by rewrite lookup_insert_ne.
Qed.

(** C10.  Before a configuration was set, or while the colour table is
    empty, [drawSpoke] returns the component as it was: the buffer, the
    pending flag and the requested frames are those of before. *)
Theorem drawSpoke_unconfigured_noop (c : Component) (s : RadarSpoke) :
  config c = None \/ legendRGBA c = [] ->
  drawSpoke c s = c.
Proof.
  intros H. unfold drawSpoke.
  replace (ready c) with false; [reflexivity|].
  unfold ready. destruct H as [-> | ->]; [reflexivity|].
  by destruct (config c).
Qed.

End SweepBuffer.

Lemma configured_ready : Display.ready configured = true.
Proof. reflexivity. Qed.

Lemma sweep_buffer_last_write_wins_witness :
  Display.ready configured = true /\
  Display.spokeDataBuffer (Display.drawSpokes configured [spokeA; spokeC; spokeB])
    !! 512 = Some [x01; x01]%byte.
Proof.
  split; [reflexivity|].
  exact (sweep_buffer_last_write_wins configured [spokeA; spokeC; spokeB]
           eq_refl 512).
Defined.

Lemma drawSpoke_unconfigured_noop_witness :
  (Display.config fresh = None \/ Display.legendRGBA fresh = []) /\
  Display.drawSpoke fresh spokeA = fresh.
Proof.
  split; [left; reflexivity|].
  apply drawSpoke_unconfigured_noop. left. reflexivity.
Defined.

(** ** The legend table *)

Section Legend.

Implicit Types legend : gmap nat LegendEntry.

Lemma length_padRGBA (rgba : list Js.channel) :
  (4 <= length (padRGBA 4 rgba))%nat.
Proof.
  destruct rgba as [|a [|b [|c [|d rest]]]]; simpl; lia.
Qed.

Lemma length_hexToRGBA (hex : string) : (4 <= length (hexToRGBA hex))%nat.
Proof. apply length_padRGBA. Qed.

Lemma length_legendSlot legend i : (4 <= length (legendSlot legend i))%nat.
Proof.
  unfold legendSlot. destruct (legend !! i); [apply length_hexToRGBA|].
  simpl. lia.
Qed.

Lemma length_legendTable legend : length (legendTable legend) = 256%nat.
Proof. unfold legendTable. by rewrite length_fmap, length_seq. Qed.

Lemma legendTable_lookup legend i :
  (i < 256)%nat -> legendTable legend !! i = Some (legendSlot legend i).
Proof.
  intros Hi. unfold legendTable.
  by rewrite list_lookup_fmap, lookup_seq_lt.
Qed.

Lemma arraySet_alpha (rgba : list Js.channel) :
  (4 <= length rgba)%nat ->
  Js.arraySet None 3 (Some 255) rgba !! 3%nat = Some (Some 255).
Proof.
  intros Hl. unfold Js.arraySet.
  destruct (Nat.ltb_spec 3 (length rgba)); [|lia].
  by apply list_lookup_insert_eq.
Qed.

Lemma expandLegend_unfold legend :
  Display.expandLegend legend =
    <[0%nat := Js.arraySet None 3 (Some 255) (legendSlot legend 0)]>
      (legendTable legend).
Proof.
  unfold Display.expandLegend.
  by rewrite legendTable_lookup by lia.
Qed.

Lemma length_expandLegend legend :
  length (Display.expandLegend legend) = 256%nat.
Proof.
  by rewrite expandLegend_unfold, length_insert, length_legendTable.
Qed.

(** The table of the display component.  The expansion of any sparse
    legend has exactly 256 entries; an index that the sparse legend lacks
    is computed as (0,0,0,0); the entry at index 0 then has its alpha set
    to 255 whatever colour was computed for it, so that an absent index 0
    ends as (0,0,0,255). *)
Lemma expandLegend_table legend :
  length (Display.expandLegend legend) = 256%nat /\
  (forall i : nat, i <> 0%nat -> (i < 256)%nat -> legend !! i = None ->
     Display.expandLegend legend !! i = Some transparent) /\
  (exists c0, Display.expandLegend legend !! 0%nat = Some c0 /\
              c0 !! 3%nat = Some (Some 255)) /\
  (legend !! 0%nat = None ->
     Display.expandLegend legend !! 0%nat
       = Some [Some 0; Some 0; Some 0; Some 255]).
Proof.
  split; [apply length_expandLegend|].
  rewrite expandLegend_unfold. split; [|split].
  - intros i Hne Hi Habs.
    rewrite list_lookup_insert_ne by done.
    rewrite legendTable_lookup by done.
    unfold legendSlot. by rewrite Habs.
  - eexists. split.
    + apply list_lookup_insert_eq. rewrite length_legendTable. lia.
    + apply arraySet_alpha, length_legendSlot.
  - intros Habs.
    rewrite list_lookup_insert_eq by (rewrite length_legendTable; lia).
    unfold legendSlot. by rewrite Habs.
Qed.

Lemma expandLegend_table_witness :
  sampleLegend !! 2%nat = None /\
  Display.expandLegend sampleLegend !! 2%nat = Some transparent.
Proof.
  split; [reflexivity|].
  apply (proj1 (proj2 (expandLegend_table sampleLegend)) 2%nat);
    [lia | lia | reflexivity].
Defined.

(** Index 0 of the empty legend in the display component: computed as
    (0,0,0,0), then made opaque. *)
Lemma expandLegend_absent_zero_is_opaque :
  (∅ : gmap nat LegendEntry) !! 0%nat = None /\
  Display.expandLegend ∅ !! 0%nat = Some [Some 0; Some 0; Some 0; Some 255].
Proof. split; reflexivity. Qed.

(** The map layer builds the same table and leaves slot 0 as computed. *)
Lemma layer_expandLegend_lookup legend i :
  (i < 256)%nat -> Layer.expandLegend legend !! i = Some (legendSlot legend i).
Proof. apply legendTable_lookup. Qed.

Lemma layer_expandLegend_slot0 :
  Layer.expandLegend ∅ !! 0%nat = Some transparent.
Proof. reflexivity. Qed.

(** C2.  The table of the map layer lacks the last step of the
    display component's.  For the sample legend, which has an entry
    for index 1 only, [RadarLayerComponent.expandLegend] gives 256
    entries with (0,0,0,0) at the absent indices, and its entry 0 keeps
    alpha 0, where the claim and [RadarDisplayComponent.expandLegend]
    have alpha 255. *)
Theorem layer_expandLegend_keeps_alpha :
  length (Layer.expandLegend sampleLegend) = 256%nat /\
  forallb
    (fun i : nat =>
       match sampleLegend !! i, Layer.expandLegend sampleLegend !! i with
       | None, Some [Some 0; Some 0; Some 0; Some 0] => true
       | Some _, Some _ => true
       | _, _ => false
       end)
    (seq 0 256) = true /\
  sampleLegend !! 0%nat = None /\
  Layer.expandLegend sampleLegend !! 0%nat
    = Some [Some 0; Some 0; Some 0; Some 0] /\
  Display.expandLegend sampleLegend !! 0%nat
    = Some [Some 0; Some 0; Some 0; Some 255].
Proof. repeat split; vm_compute; reflexivity. Qed.

End Legend.

(** ** Render scheduling *)

Section Scheduling.

Import Display.

Lemma colorIndex_lt (v : byte) : (colorIndex v < 256)%nat.
Proof. unfold colorIndex. lia. Qed.

Lemma paintSamples_ok table scaled i samples :
  length table = 256%nat ->
  snd (paintSamples table scaled i samples) = true.
Proof.
  intros Hl. revert i. induction samples as [|v rest IH]; intros i; simpl.
  - reflexivity.
  - destruct (lookup_lt_is_Some_2 table (colorIndex v)) as [rgba ->].
    { rewrite Hl. apply colorIndex_lt. }
    specialize (IH (S i)).
    destruct (paintSamples table scaled (S i) rest) as [ops ok]. exact IH.
Qed.

Lemma renderSingleSpoke_ok c cfg a d :
  length (legendRGBA c) = 256%nat ->
  snd (renderSingleSpoke c cfg a d) = true.
Proof.
  intros Hl. unfold renderSingleSpoke.
  pose proof (paintSamples_ok (legendRGBA c)
                (scaledPixelsPerDataPoint c d) 0 d Hl) as H.
  destruct (paintSamples _ _ _ _) as [ops ok]. exact H.
Qed.

Lemma renderSpokes_cons_Some c cfg a d rest :
  length (legendRGBA c) = 256%nat ->
  spokeDataBuffer c !! a = Some d ->
  renderSpokes c cfg (a :: rest) =
    (fst (renderSingleSpoke c cfg a d) ++ fst (renderSpokes c cfg rest),
     snd (renderSpokes c cfg rest)).
Proof.
  intros Hl Hd. simpl. rewrite Hd.
  pose proof (renderSingleSpoke_ok c cfg a d Hl) as H.
  destruct (renderSingleSpoke c cfg a d) as [ops ok]. simpl in *. subst ok.
  destruct (renderSpokes c cfg rest) as [ops' ok']. reflexivity.
Qed.

Lemma renderSpokes_ok c cfg angles :
  length (legendRGBA c) = 256%nat ->
  snd (renderSpokes c cfg angles) = true.
Proof.
  intros Hl. induction angles as [|a rest IH]; [reflexivity|].
  destruct (spokeDataBuffer c !! a) as [d|] eqn:Hd.
  - by rewrite (renderSpokes_cons_Some c cfg a d rest Hl Hd).
  - simpl. by rewrite Hd.
Qed.




Lemma drawSpoke_coherent c s : coherent c -> coherent (drawSpoke c s).
Proof.
  unfold coherent, drawSpoke. intros H. destruct (ready c); [|done].
  simpl. destruct (pendingRender c) eqn:Hp; simpl; rewrite ?Hp; lia.
Qed.







(** *** Reachable components are well formed *)

Lemma updateCenterAndRadius_frame c :
  let c' := updateCenterAndRadius c in
  legendRGBA c' = legendRGBA c /\ pendingRender c' = pendingRender c /\
  frameRequests c' = frameRequests c /\ config c' = config c.
Proof.
  unfold updateCenterAndRadius. simpl. by repeat case_match.
Qed.

Lemma setRadarConfig_wellFormed c cfg :
  coherent c -> wellFormed (fst (setRadarConfig c cfg)).
Proof.
  intros Hc. unfold setRadarConfig.
  set (c2 := set_legend (set_config c cfg) (expandLegend (legend cfg))).
  destruct (updateCenterAndRadius_frame c2) as (Hl & Hp & Hq & _).
  assert (Hlen : length (legendRGBA (updateCenterAndRadius c2)) = 256%nat).
  { rewrite Hl. apply length_expandLegend. }
  unfold wellFormed, coherent in *.
  destruct (validArrayLength (spokes cfg)); simpl;
    rewrite ?Hl, ?Hp, ?Hq; simpl; rewrite <- ?Hl; auto.
Qed.

Lemma render_wellFormed c :
  (legendRGBA c = [] \/ length (legendRGBA c) = 256%nat) ->
  pendingRender (fst (render c)) = false /\
  frameRequests (fst (render c)) = frameRequests c /\
  legendRGBA (fst (render c)) = legendRGBA c.
Proof.
  intros Ht. unfold render, ready.
  destruct (config c) as [cfg|]; [|done].
  destruct (legendRGBA c) as [|rgba table] eqn:Hl; [done|].
  destruct Ht as [Ht|Ht]; [discriminate Ht|].
  pose proof (renderSpokes_ok c cfg (seqZ 0 (spokes cfg))) as Hok.
  rewrite Hl in Hok. specialize (Hok Ht).
  destruct (renderSpokes c cfg (seqZ 0 (spokes cfg))) as [ops ok].
  simpl in Hok. subst ok. simpl. by rewrite Hl.
Qed.

Lemma animationFrame_wellFormed c :
  wellFormed c -> wellFormed (fst (animationFrame c)).
Proof.
  intros [Hc Ht]. unfold animationFrame, coherent in *.
  destruct (pendingRender c) eqn:Hp; rewrite Hc; simpl.
  - destruct (render_wellFormed (set_frameRequests c 0) Ht) as (H1 & H2 & H3).
    destruct (render (set_frameRequests c 0)) as [c1 r]. simpl in *.
    unfold wellFormed, coherent. by rewrite H1, H2, H3.
  - unfold wellFormed, coherent. simpl. by rewrite Hp.
Qed.

Lemma step_wellFormed c e : wellFormed c -> wellFormed (step c e).
Proof.
  intros Hwf. destruct e as [cfg|m|h|s|]; simpl.
  - apply setRadarConfig_wellFormed, Hwf.
  - unfold updateDisplayMode.
    destruct (updateCenterAndRadius_frame (set_displayMode c m))
      as (Hl & Hp & Hq & _).
    unfold wellFormed, coherent in *. by rewrite Hl, Hp, Hq.
  - exact Hwf.
  - destruct Hwf as [Hc Ht]. split; [by apply drawSpoke_coherent|].
    by rewrite drawSpoke_legend.
  - by apply animationFrame_wellFormed.
Qed.

Lemma ngOnInit_wellFormed w h heading m : wellFormed (ngOnInit w h heading m).
Proof.
  unfold ngOnInit.
  destruct (updateCenterAndRadius_frame
              (mkComponent w h heading m 0 0 0 None [] ∅ false 0))
    as (Hl & Hp & Hq & _).
  unfold wellFormed, coherent. rewrite Hl, Hp, Hq. split; [done|by left].
Qed.

(** Whatever happens to a component after [ngOnInit], the pending flag
    agrees with the frame queue and the colour table is empty or has its
    256 entries. *)
Lemma run_wellFormed w h heading m es :
  wellFormed (run (ngOnInit w h heading m) es).
Proof.
  induction es as [|e es IH] using rev_ind.
  - apply ngOnInit_wellFormed.
  - unfold run. rewrite foldl_app. simpl. by apply step_wellFormed.
Qed.

End Scheduling.


(** ** Wedge geometry *)

Section Geometry.

Import Display.
Local Open Scope R_scope.

Lemma trunc_nonneg (x : R) : 0 <= x -> Js.trunc x = Int_part x.
Proof.
  intros Hx. unfold Js.trunc. destruct (Rle_dec 0 x); [reflexivity|contradiction].
Qed.

(** On a non-negative dividend and a positive divisor the remainder of
    the engine is the remainder of the specification. *)
Lemma rem_Rmod (x y : R) : 0 <= x -> 0 < y -> Js.rem x y = Rmod x y.
Proof.
  intros Hx Hy. unfold Js.rem, Rmod. rewrite trunc_nonneg; [reflexivity|].
  unfold Rdiv. apply Rmult_le_pos; [exact Hx|].
  left. apply Rinv_0_lt_compat. exact Hy.
Qed.

Lemma angleRad_theta (cfg : RadarConfig) (a : Z) :
  (0 <= a < spokes cfg)%Z -> angleRad cfg a = theta (spokes cfg) a.
Proof.
  intros [Ha Hs]. unfold angleRad, adjustedAngle, theta.
  assert (H0 : 0 <= IZR a) by (apply IZR_le; exact Ha).
  assert (H1 : 0 < IZR (spokes cfg)) by (apply IZR_lt; lia).
  rewrite rem_Rmod; [reflexivity| lra | exact H1].
Qed.

(** C6.  For a bin [a] of the configuration, the wedge is painted under
    the rotation [theta - heading * pi / 180], with [theta] the nominal
    angle of the specification; with heading 0 the rotation is [theta],
    and with heading 90 a wedge whose [theta] is 0 is painted at
    [- pi / 2]. *)
Theorem wedge_angle (c : Component) (cfg : RadarConfig) (a : Z)
    (d : list byte) :
  (0 <= a < spokes cfg)%Z ->
  (exists ops,
     fst (renderSingleSpoke c cfg a d) =
       Save :: Translate (centerX c) (centerY c)
         :: Rotate (theta (spokes cfg) a - boatHeading c * PI / 180) :: ops) /\
  (boatHeading c = 0 -> finalAngle c cfg a = theta (spokes cfg) a) /\
  (boatHeading c = 90 -> theta (spokes cfg) a = 0 ->
     finalAngle c cfg a = - PI / 2).
Proof.
  intros Ha.
  assert (Hf : finalAngle c cfg a
               = theta (spokes cfg) a - boatHeading c * PI / 180).
  { unfold finalAngle, headingRad. by rewrite angleRad_theta. }
  split; [|split].
  - unfold renderSingleSpoke.
    destruct (paintSamples _ _ _ _) as [ops ok]. simpl.
    rewrite Hf. by eexists.
  - intros Hh. rewrite Hf, Hh. lra.
  - intros Hh Ht. rewrite Hf, Hh, Ht. lra.
Qed.

(** A quarter turn into the sweep the nominal angle is zero. *)
Lemma theta_quarter : theta 2048 512 = 0.
Proof.
  unfold theta, Rmod.
  replace (IZR 512 + IZR 2048 * 3 / 4) with (IZR 2048) by lra.
  replace (IZR 2048 / IZR 2048) with (IZR 1) by lra.
  rewrite <- (Int_part_spec (IZR 1) 1) by lra. lra.
Qed.

Lemma wedge_angle_witness :
  (0 <= 512 < spokes sampleConfig)%Z /\
  (boatHeading configured = 0 ->
   finalAngle configured sampleConfig 512 = theta (spokes sampleConfig) 512).
Proof.
  assert (H : (0 <= 512 < spokes sampleConfig)%Z) by (simpl; lia).
  split; [exact H|].
  exact (proj1 (proj2 (wedge_angle configured sampleConfig 512 [] H))).
Defined.

(** ** Range rescaling *)

Lemma smallDisplay_maxRadius : maxRadius smallDisplay = 270.
Proof.
  change (maxRadius smallDisplay) with (Rmin (600 / 2) (600 / 2) * RANGE_SCALE).
  unfold Rmin, RANGE_SCALE. destruct (Rle_dec (600 / 2) (600 / 2)); lra.
Qed.

Lemma nonzero_true (r : R) : r <> 0 -> nonzero r = true.
Proof. intros H. unfold nonzero. by destruct (Req_dec_T r 0). Qed.

Lemma nonzero_false : nonzero 0 = false.
Proof. unfold nonzero. by destruct (Req_dec_T 0 0). Qed.

(** The previous revision rescales as the specification says. *)
Lemma legacy_rescale (c : Component) (cfg : RadarConfig) (s : RadarSpoke) :
  Legacy.scaledPixelsPerDataPoint c cfg s =
    pixelsPerDataPoint c (data s)
      * (if nonzero (cfg_range cfg) then range s / cfg_range cfg else 1).
Proof. reflexivity. Qed.

Lemma legacy_rescale_zero_range (c : Component) (cfg : RadarConfig)
    (s : RadarSpoke) :
  cfg_range cfg = 0 ->
  Legacy.scaledPixelsPerDataPoint c cfg s = pixelsPerDataPoint c (data s).
Proof.
  intros H. rewrite legacy_rescale, H, nonzero_false. lra.
Qed.

(** At the sample spoke the previous revision paints cells of 243
    pixels. *)
Lemma legacy_paints_rescaled :
  exists cell : R,
    Legacy.drawSpoke smallDisplay farSpoke =
      Legacy.Painted
        [Save;
         Translate (centerX smallDisplay) (centerY smallDisplay);
         Rotate (finalAngle smallDisplay smallConfig 1);
         FillStyle [Some 255; Some 0; Some 0; Some 255]%Z;
         FillRect (INR 0 * cell) (-0.5) cell 1;
         FillStyle [Some 255; Some 0; Some 0; Some 255]%Z;
         FillRect (INR 1 * cell) (-0.5) cell 1;
         Restore] /\
    cell = 243.
Proof.
  exists (Legacy.scaledPixelsPerDataPoint smallDisplay smallConfig farSpoke).
  split; [reflexivity|].
  rewrite legacy_rescale. unfold pixelsPerDataPoint.
  rewrite smallDisplay_maxRadius. unfold RANGE_SCALE. simpl.
  rewrite nonzero_true by lra. lra.
Qed.

(** The map layer rescales too, when both ranges are known. *)
Lemma layer_rescale (w h : R) (cfg : RadarConfig) (s : RadarSpoke) :
  cfg_range cfg <> 0 -> range s <> 0 ->
  Layer.pixelsPerItem w h cfg s =
    Rmin (w / 2) (h / 2) * 0.9 * 0.9 / INR (length (data s))
      * range s / cfg_range cfg.
Proof.
  intros H1 H2. unfold Layer.pixelsPerItem.
  by rewrite !nonzero_true.
Qed.

(** The current revision keeps the samples of a spoke and nothing else:
    two spokes that differ in their range leave the same component. *)
Lemma drawSpoke_forgets_range (c : Component) (a : Z) (b : option R)
    (r r' : R) (d : list byte) :
  drawSpoke c (mkSpoke a b r d) = drawSpoke c (mkSpoke a b r' d).
Proof. reflexivity. Qed.

(** C4, at a spoke taken at 3704 m while the configuration displays
    1852 m.  The render pass paints the two samples in cells of 121.5
    pixels, the width for a spoke at the displayed range; the rescaled
    width, which the previous revision computes, is 243. *)
Theorem render_ignores_spoke_range :
  exists cell : R,
    snd (animationFrame (drawSpoke smallDisplay farSpoke)) =
      [Pass [ClearRect 0 0 600 600;
             Save;
             Translate (centerX smallDisplay) (centerY smallDisplay);
             Rotate (finalAngle smallDisplay smallConfig 1);
             FillStyle [Some 255; Some 0; Some 0; Some 255]%Z;
             FillRect (INR 0 * cell) (-0.5) cell 1;
             FillStyle [Some 255; Some 0; Some 0; Some 255]%Z;
             FillRect (INR 1 * cell) (-0.5) cell 1;
             Restore]] /\
    cell = 121.5 /\
    Legacy.scaledPixelsPerDataPoint smallDisplay smallConfig farSpoke = 243.
Proof.
  exists (scaledPixelsPerDataPoint smallDisplay (data farSpoke)).
  split; [reflexivity|]. split.
  - unfold scaledPixelsPerDataPoint, pixelsPerDataPoint.
    rewrite smallDisplay_maxRadius. unfold RANGE_SCALE. simpl. lra.
  - rewrite legacy_rescale. unfold pixelsPerDataPoint.
    rewrite smallDisplay_maxRadius. unfold RANGE_SCALE. simpl.
    rewrite nonzero_true by lra. lra.
Qed.

End Geometry.

(** ** Range labels *)

(** C7.  The four labels of the specification. *)
Theorem range_labels :
  formatRange 1852 = "1 nm"%string /\
  formatRange 2778 = "1.5 nm"%string /\
  formatRange 500 = "500 m"%string /\
  formatRange 1500 = "1.5 km"%string.
Proof. repeat split; vm_compute; reflexivity. Qed.

(** ** The protocol client *)

Section Client.

Import Service.
Local Open Scope string_scope.

Lemma ownProperty_None (radars : Radars) (k : string) :
  k ∉ keys radars -> ownProperty radars k = None.
Proof.
  induction radars as [|[k' e] rest IH]; intros Hk; [reflexivity|].
  simpl in *. apply not_elem_of_cons in Hk as [Hne Hk].
  destruct (String.eqb_spec k k') as [->|_]; [done|]. by apply IH.
Qed.

Lemma existsb_eqb_false (k : string) (names : list string) :
  k ∉ names -> existsb (String.eqb k) names = false.
Proof.
  induction names as [|n rest IH]; intros Hk; [reflexivity|].
  apply not_elem_of_cons in Hk as [Hne Hk]. simpl.
  destruct (String.eqb_spec k n) as [->|_]; [done|]. by apply IH.
Qed.

(** A name that is neither a key of the response nor inherited is
    looked up as [undefined]. *)
Lemma lookupRadar_Absent (radars : Radars) (k : string) :
  k ∉ keys radars -> k ∉ objectPrototypeNames ->
  lookupRadar radars k = Absent.
Proof.
  intros Hk Hp. unfold lookupRadar.
  by rewrite ownProperty_None, existsb_eqb_false.
Qed.

Lemma explicitId_nonempty (radarId : string) :
  radarId <> "" -> explicitId (Some radarId) = Some radarId.
Proof. intros H. unfold explicitId. by destruct radarId. Qed.

(** The discovery response does not have the identifier asked for:
    whatever the state, the call ends in its [catch] clause. *)
Lemma resume_unknown_source (st : State) (now : Z) (radarId : string)
    (radars : Radars) (construct : WebSocketConstructor) :
  radarId <> "" -> radarId ∉ keys radars ->
  radarId ∉ objectPrototypeNames ->
  connectToRadar_resume st now (Some radarId) (Discovered radars) construct =
    (connectFailed st (ErrorObj "Error" (notFoundMessage radarId radars)),
     Threw (ErrorObj "Error" (notFoundMessage radarId radars))).
Proof.
  intros Hne Habs Hp. unfold connectToRadar_resume.
  rewrite explicitId_nonempty by done.
  by rewrite lookupRadar_Absent.
Qed.

Lemma connectToRadar_idle (st : State) (now : Z) (radarId : option string)
    (d : Discovery) (construct : WebSocketConstructor) :
  connecting st = false -> connected st = false ->
  connectToRadar st now radarId d construct =
    connectToRadar_resume (set_connecting st true) now radarId d construct.
Proof.
  intros H1 H2. unfold connectToRadar, connectToRadar_enter.
  by rewrite H1, H2.
Qed.

(** C8.  A call of [connectToRadar] that gets past its guard (the client
    is neither connecting nor connected) with a non-empty identifier that
    is neither a key of the discovery response nor the name of a member
    the response inherits throws an error whose message lists the keys
    of the response; the error is also sent to the error channel, the
    client is left disconnected, and no socket is constructed, no timer
    set and no configuration published, whatever the browser would
    answer to the construction of a socket. *)
Theorem connect_unknown_source (st : State) (now : Z) (radarId : string)
    (radars : Radars) (construct : WebSocketConstructor) :
  connecting st = false -> connected st = false ->
  radarId <> "" -> radarId ∉ keys radars ->
  radarId ∉ objectPrototypeNames ->
  let message := "Radar " ++ radarId ++ " not found. Available radars: "
                   ++ String.concat ", " (keys radars) in
  let r := connectToRadar st now (Some radarId) (Discovered radars)
             construct in
  snd r = Threw (ErrorObj "Error" message) /\
  errors (fst r)
    = (errors st
         ++ [("Failed to connect to radar: Error: " ++ message)%string])%list /\
  sockets (fst r) = sockets st /\
  webSocket (fst r) = webSocket st /\
  timers (fst r) = timers st /\
  connecting (fst r) = false /\
  connected (fst r) = false /\
  currentRadar (fst r) = currentRadar st /\
  published (fst r) = published st.
Proof.
  intros Hc1 Hc2 Hne Habs Hp message r. subst r message.
  rewrite connectToRadar_idle by done.
  rewrite resume_unknown_source by done. simpl.
  by rewrite Hc2.
Qed.

Lemma not_inherited (k : string) :
  existsb (String.eqb k) objectPrototypeNames = false ->
  k ∉ objectPrototypeNames.
Proof.
  intros H Hin. apply list_elem_of_In in Hin.
  assert (Hex : existsb (String.eqb k) objectPrototypeNames = true).
  { apply existsb_exists. exists k. split; [done|apply String.eqb_refl]. }
  congruence.
Qed.

Lemma connect_unknown_source_witness :
  connecting initial = false /\ connected initial = false /\
  "radar-9" <> "" /\ ("radar-9" ∉ keys sampleRadars) /\
  ("radar-9" ∉ objectPrototypeNames) /\
  snd (connectToRadar initial 0 (Some "radar-9") (Discovered sampleRadars)
         accepting)
    = Threw (ErrorObj "Error"
               "Radar radar-9 not found. Available radars: radar-0").
Proof.
  assert (H1 : "radar-9" <> "") by discriminate.
  assert (H2 : "radar-9" ∉ keys sampleRadars).
  { simpl. intros H. apply list_elem_of_singleton in H. discriminate H. }
  assert (H3 : "radar-9" ∉ objectPrototypeNames).
  { apply not_inherited. reflexivity. }
  split; [reflexivity|]. split; [reflexivity|].
  split; [exact H1|]. split; [exact H2|]. split; [exact H3|].
  exact (proj1 (connect_unknown_source initial 0 "radar-9" sampleRadars
                  accepting eq_refl eq_refl H1 H2 H3)).
Defined.

(** C8 as stated fails for the empty identifier, which the guard of
    [connectToRadar] takes as no identifier: the response has the one key
    radar-0, the call for the identifier of no character raises nothing,
    takes radar-0 and constructs the socket to its stream. *)
Lemma empty_id_takes_first_radar :
  keys sampleRadars = ["radar-0"] /\
  lookupRadar sampleRadars "" = Absent /\
  snd emptyIdCall = Awaiting /\
  errors (fst emptyIdCall) = [] /\
  option_map id (currentRadar (fst emptyIdCall)) = Some "radar-0" /\
  sockets (fst emptyIdCall)
    = [mkSocket "ws://localhost:3001/v1/api/stream/radar-0" false false].
Proof. repeat split. Qed.

(** An identifier that names an inherited member is looked up as
    present: the call raises no error for it. *)
Lemma inherited_name_is_found :
  keys sampleRadars = ["radar-0"] /\
  lookupRadar sampleRadars "constructor" = Inherited /\
  lookupRadar sampleRadars "__proto__" = Inherited /\
  connectToRadar initial 0 (Some "toString") (Discovered sampleRadars)
    accepting
    = (set_connecting initial true, Untyped).
Proof. repeat split. Qed.

(** C9.  With a configuration published, [updateRange] publishes one
    configuration, which has the given range and the bin count, spoke
    length and legend of the previous one; no socket is constructed or
    closed, and the connection state, the current radar and the timers
    stay as they were. *)
Theorem updateRange_local (st : State) (cfg : RadarConfig) (meters : R) :
  radarConfig st = Some cfg ->
  let st' := updateRange st meters in
  (exists cfg',
     radarConfig st' = Some cfg' /\
     published st' = (published st ++ [cfg'])%list /\
     cfg_range cfg' = meters /\
     spokes cfg' = spokes cfg /\
     maxSpokeLen cfg' = maxSpokeLen cfg /\
     legend cfg' = legend cfg) /\
  sockets st' = sockets st /\
  webSocket st' = webSocket st /\
  connected st' = connected st /\
  connecting st' = connecting st /\
  currentRadar st' = currentRadar st /\
  timers st' = timers st /\
  errors st' = errors st.
Proof.
  intros Hcfg st'. subst st'. unfold updateRange. rewrite Hcfg.
  split; [|done]. by eexists.
Qed.

Lemma updateRange_local_witness :
  radarConfig connectedClient = Some sampleConfig /\
  sockets (updateRange connectedClient 3704) = sockets connectedClient.
Proof.
  split; [reflexivity|].
  exact (proj1 (proj2 (updateRange_local connectedClient sampleConfig 3704
                         eq_refl))).
Defined.

(** [disconnect] forgets the current radar. *)
Lemma disconnect_currentRadar (st : State) : currentRadar (disconnect st) = None.
Proof. reflexivity. Qed.

(** C5, as the client has it.  Every closure of the stream, clean or
    not, leaves the client disconnected and adds one reconnect timer due
    5000 ms later to the outstanding timers.  When a reconnect timer
    fires, a connect to the current radar starts if and only if a current
    radar is still recorded and the client is neither connecting nor
    connected; after [disconnect], which forgets the current radar, it
    starts nothing. *)
Theorem onclose_reconnect (st : State) (now : Z) (ev : CloseEvent) :
  let st' := onclose st now ev in
  connected st' = false /\
  connecting st' = false /\
  timers st' = (timers st ++ [mkTimer (now + 5000) Reconnect])%list /\
  (forall (s : State) (rid : string),
     snd (runTimer s Reconnect) = Some rid <->
     (exists r, currentRadar s = Some r /\ id r = rid) /\
     connecting s = false /\ connected s = false) /\
  (forall s : State, runTimer (disconnect s) Reconnect = (disconnect s, None)).
Proof.
  intros st'. subst st'. split; [reflexivity|]. split; [reflexivity|].
  split; [reflexivity|]. split.
  - intros s rid. unfold runTimer, connectToRadar_enter.
    destruct (currentRadar s) as [r|]; simpl.
    + destruct (connecting s), (connected s); simpl; split.
      all: try (intros H; discriminate H).
      all: try (intros (_ & H1 & H2); discriminate).
      * intros [= <-]. split; [by exists r|done].
      * intros ((r' & [= <-] & <-) & _). reflexivity.
    + split; [intros H; discriminate H|].
      intros ((r & H & _) & _). discriminate H.
  - intros s. reflexivity.
Qed.

(** C5 as stated fails on a clean closure, which sets the reconnect timer
    all the same, and on the sample run with two closures, after which
    two reconnect timers are outstanding. *)
Lemma clean_close_sets_reconnect_timer :
  wasClean cleanClose = true /\
  reconnectTimers (onclose connectedClient 1000 cleanClose)
    = [mkTimer 6000 Reconnect] /\
  reconnectTimers twoClosures
    = [mkTimer 6000 Reconnect; mkTimer 8000 Reconnect].
Proof. repeat split. Qed.

End Client.

(** * Further properties *)

(** ** The render pass and the sweep buffer *)

Section RenderPass.

Import Display.

Lemma renderSpokes_wedges c cfg angles :
  length (legendRGBA c) = 256%nat ->
  fst (renderSpokes c cfg angles) =
    flat_map
      (fun a : Z =>
         match spokeDataBuffer c !! a with
         | Some d => fst (renderSingleSpoke c cfg a d)
         | None => []
         end)
      angles.
Proof.
  intros Hl. induction angles as [|a rest IH]; [reflexivity|].
  destruct (spokeDataBuffer c !! a) as [d|] eqn:Hd.
  - rewrite (renderSpokes_cons_Some c cfg a d rest Hl Hd). simpl.
    by rewrite Hd, IH.
  - simpl. by rewrite Hd, IH.
Qed.

Lemma render_result (c : Component) (cfg : RadarConfig) :
  config c = Some cfg ->
  length (legendRGBA c) = 256%nat ->
  snd (render c) = Pass (ClearRect 0 0 (width c) (height c) :: wedges c cfg).
Proof.
  intros Hcfg Hl.
  pose proof (renderSpokes_ok c cfg (seqZ 0 (spokes cfg)) Hl) as Hok.
  pose proof (renderSpokes_wedges c cfg (seqZ 0 (spokes cfg)) Hl) as Hw.
  unfold render, ready. rewrite Hcfg.
  destruct (legendRGBA c); [discriminate Hl|].
  destruct (renderSpokes c cfg (seqZ 0 (spokes cfg))) as [ops ok].
  simpl in *. by subst ok ops.
Qed.

(** X1.  With a configuration and the full colour table, a call of
    [render] clears the canvas, paints for every bin of the configuration
    in increasing order the wedge of the samples stored under it, and
    lowers the pending flag; it changes nothing else, the buffer
    included. *)
Theorem render_paints_buffer (c : Component) (cfg : RadarConfig) :
  config c = Some cfg ->
  length (legendRGBA c) = 256%nat ->
  render c =
    (set_pending c false,
     Pass (ClearRect 0 0 (width c) (height c) :: wedges c cfg)).
Proof.
  intros Hcfg Hl. unfold render, ready. rewrite Hcfg.
  destruct (legendRGBA c) as [|rgba table] eqn:Ht; [discriminate Hl|].
  pose proof (renderSpokes_ok c cfg (seqZ 0 (spokes cfg))) as Hok.
  pose proof (renderSpokes_wedges c cfg (seqZ 0 (spokes cfg))) as Hw.
  rewrite Ht in Hok, Hw. specialize (Hok Hl). specialize (Hw Hl).
  destruct (renderSpokes c cfg (seqZ 0 (spokes cfg))) as [ops ok].
  simpl in *. subst ok ops. reflexivity.
Qed.

Lemma render_paints_buffer_witness :
  config configured = Some sampleConfig /\
  length (legendRGBA configured) = 256%nat /\
  pendingRender (fst (render configured)) = false.
Proof.
  split; [reflexivity|]. split; [reflexivity|].
  by rewrite (render_paints_buffer configured sampleConfig eq_refl eq_refl).
Defined.

Lemma flat_map_ext_in {A B : Type} (f g : A -> list B) (l : list A) :
  (forall a, In a l -> f a = g a) -> flat_map f l = flat_map g l.
Proof.
  intros H. induction l as [|a rest IH]; [reflexivity|].
  simpl. rewrite (H a) by (by left). rewrite IH; [reflexivity|].
  intros b Hb. apply H. by right.
Qed.

Lemma renderSingleSpoke_drawSpoke c s cfg a d :
  renderSingleSpoke (drawSpoke c s) cfg a d = renderSingleSpoke c cfg a d.
Proof.
  unfold drawSpoke. destruct (ready c); [|reflexivity].
  simpl. destruct (pendingRender c); reflexivity.
Qed.

(** X2.  A spoke whose angle is not a bin of the configuration is stored
    in the buffer and never painted: the wedges of the next pass are those
    of the pass without it. *)
Theorem stray_spoke_not_painted (c : Component) (cfg : RadarConfig)
    (s : RadarSpoke) :
  ready c = true ->
  angle s < 0 \/ spokes cfg <= angle s ->
  spokeDataBuffer (drawSpoke c s) !! angle s = Some (data s) /\
  wedges (drawSpoke c s) cfg = wedges c cfg.
Proof.
  intros Hr Hout. rewrite drawSpoke_buffer by done. split.
  - by rewrite lookup_insert_eq.
  - unfold wedges. apply flat_map_ext_in. intros a Ha.
    apply list_elem_of_In, elem_of_seqZ in Ha.
    rewrite drawSpoke_buffer by done.
    rewrite lookup_insert_ne by lia.
    destruct (spokeDataBuffer c !! a); [|reflexivity].
    by rewrite renderSingleSpoke_drawSpoke.
Qed.

Lemma stray_spoke_not_painted_witness :
  ready configured = true /\
  (angle (mkSpoke 2048 None 1852 [x01]%byte) < 0 \/
   spokes sampleConfig <= angle (mkSpoke 2048 None 1852 [x01]%byte)) /\
  wedges (drawSpoke configured (mkSpoke 2048 None 1852 [x01]%byte))
    sampleConfig = wedges configured sampleConfig.
Proof.
  assert (H : angle (mkSpoke 2048 None 1852 [x01]%byte) < 0 \/
              spokes sampleConfig <= angle (mkSpoke 2048 None 1852 [x01]%byte))
    by (right; simpl; lia).
  split; [reflexivity|]. split; [exact H|].
  exact (proj2 (stray_spoke_not_painted configured sampleConfig
                  (mkSpoke 2048 None 1852 [x01]%byte) eq_refl H)).
Defined.

Lemma drawSpoke_swap c s1 s2 :
  angle s1 <> angle s2 ->
  drawSpoke (drawSpoke c s1) s2 = drawSpoke (drawSpoke c s2) s1.
Proof.
  intros Hne. destruct c as [w h hd m cx cy mr cfg lg buf p fr].
  unfold drawSpoke, ready. simpl.
  destruct cfg as [cfg|]; [|reflexivity]. destruct lg as [|rgba table]; [reflexivity|].
  simpl. destruct p; simpl; unfold set_buffer, set_pending, set_frameRequests;
    simpl; f_equal; by apply insert_insert_ne.
Qed.

(** X3.  Spokes of pairwise distinct angles may arrive in any order: the
    component after the batch, and with it everything the next pass
    paints, is the same. *)
Theorem arrival_order_irrelevant (c : Component) (ss ss' : list RadarSpoke) :
  ss ≡ₚ ss' ->
  NoDup (angle <$> ss) ->
  drawSpokes c ss = drawSpokes c ss'.
Proof.
  intros Hp. revert c. unfold drawSpokes.
  induction Hp as [|s l l' Hp IH|s1 s2 l|l1 l2 l3 H12 IH12 H23 IH23];
    intros c Hnd.
  - reflexivity.
  - simpl. apply IH. rewrite fmap_cons in Hnd. by apply NoDup_cons in Hnd as [_ ?].
  - simpl. rewrite drawSpoke_swap; [reflexivity|].
    rewrite !fmap_cons in Hnd. apply NoDup_cons in Hnd as [Hnotin _].
    intros E. apply Hnotin. rewrite E. by left.
  - rewrite IH12 by done. apply IH23.
    by rewrite <- H12.
Qed.

Lemma arrival_order_irrelevant_witness :
  [spokeA; spokeC] ≡ₚ [spokeC; spokeA] /\
  NoDup (angle <$> [spokeA; spokeC]) /\
  drawSpokes configured [spokeA; spokeC] = drawSpokes configured [spokeC; spokeA].
Proof.
  assert (Hp : [spokeA; spokeC] ≡ₚ [spokeC; spokeA]) by apply perm_swap.
  assert (Hn : NoDup (angle <$> [spokeA; spokeC])).
  { simpl. apply NoDup_cons. split.
    - intros H. apply list_elem_of_singleton in H. discriminate H.
    - apply NoDup_singleton. }
  split; [exact Hp|]. split; [exact Hn|].
  exact (arrival_order_irrelevant configured _ _ Hp Hn).
Defined.

End RenderPass.

(** ** Configuration, colours and cells *)

Section Painting.

Import Display.
Local Open Scope R_scope.

Lemma setRadarConfig_fields c cfg :
  let c' := fst (setRadarConfig c cfg) in
  config c' = Some cfg /\
  legendRGBA c' = expandLegend (legend cfg) /\
  width c' = width c /\ height c' = height c /\
  pendingRender c' = pendingRender c /\
  frameRequests c' = frameRequests c /\
  spokeDataBuffer c' =
    if validArrayLength (spokes cfg) then ∅ else spokeDataBuffer c.
Proof.
  unfold setRadarConfig, updateCenterAndRadius. simpl.
  destruct (validArrayLength (spokes cfg)); simpl; by repeat case_match.
Qed.

Lemma wedges_empty c cfg : spokeDataBuffer c = ∅ -> wedges c cfg = [].
Proof.
  intros Hb. unfold wedges. rewrite Hb.
  induction (seqZ 0 (spokes cfg)) as [|a rest IH]; [reflexivity|].
  simpl. by rewrite lookup_empty.
Qed.

(** X4.  [setRadarConfig] with a bin count that is an array length
    discards the sweep: the next pass only clears the canvas.  With any
    other bin count the method ends in its RangeError after the new
    configuration and colour table are in place, and the old sweep stays
    in the buffer. *)
Theorem setRadarConfig_discards_sweep (c : Component) (cfg : RadarConfig) :
  let c' := fst (setRadarConfig c cfg) in
  if validArrayLength (spokes cfg)
  then snd (setRadarConfig c cfg) = true /\
       snd (render c') = Pass [ClearRect 0 0 (width c) (height c)]
  else snd (setRadarConfig c cfg) = false /\
       config c' = Some cfg /\
       legendRGBA c' = expandLegend (legend cfg) /\
       spokeDataBuffer c' = spokeDataBuffer c.
Proof.
  intros c'. destruct (setRadarConfig_fields c cfg)
    as (Hcfg & Hl & Hw & Hh & _ & _ & Hb). fold c' in Hcfg, Hl, Hw, Hh, Hb.
  assert (Hs : snd (setRadarConfig c cfg) = validArrayLength (spokes cfg)).
  { unfold setRadarConfig. by destruct (validArrayLength (spokes cfg)). }
  rewrite Hs. clearbody c'.
  destruct (validArrayLength (spokes cfg)).
  - split; [reflexivity|].
    rewrite (render_result c' cfg Hcfg)
      by (rewrite Hl; apply length_expandLegend).
    by rewrite wedges_empty, Hw, Hh.
  - done.
Qed.

Lemma paintSamples_one table scaled i v rgba :
  table !! colorIndex v = Some rgba -> visible rgba = true ->
  paintSamples table scaled i [v] =
    ([FillStyle rgba; FillRect (INR i * scaled) (-0.5) scaled 1], true).
Proof. intros Ht Hv. simpl. by rewrite Ht, Hv. Qed.

(** X5.  Once a configuration was set, whatever its legend, a sample of
    value 0 ("no echo") is painted: its colour has alpha 255 and the loop
    over the samples emits one cell for it. *)
Theorem no_echo_is_painted (c : Component) (cfg : RadarConfig)
    (scaled : R) (i : nat) :
  let c' := fst (setRadarConfig c cfg) in
  exists rgba,
    legendRGBA c' !! 0%nat = Some rgba /\
    rgba !! 3%nat = Some (Some 255%Z) /\
    paintSamples (legendRGBA c') scaled i [x00]%byte =
      ([FillStyle rgba; FillRect (INR i * scaled) (-0.5) scaled 1], true).
Proof.
  intros c'. destruct (setRadarConfig_fields c cfg) as (_ & Hl & _).
  fold c' in Hl. rewrite Hl. clear Hl c'.
  rewrite expandLegend_unfold.
  exists (Js.arraySet None 3 (Some 255%Z) (legendSlot (legend cfg) 0)).
  assert (Hlook : <[0%nat:=Js.arraySet None 3 (Some 255%Z)
                             (legendSlot (legend cfg) 0)]>
                    (legendTable (legend cfg)) !! 0%nat
                  = Some (Js.arraySet None 3 (Some 255%Z)
                            (legendSlot (legend cfg) 0))).
  { apply list_lookup_insert_eq. rewrite length_legendTable. lia. }
  assert (Ha : Js.arraySet None 3 (Some 255%Z) (legendSlot (legend cfg) 0)
                 !! 3%nat = Some (Some 255%Z))
    by apply arraySet_alpha, length_legendSlot.
  split; [exact Hlook|]. split; [exact Ha|].
  apply paintSamples_one; [exact Hlook|].
  unfold visible. by rewrite Ha.
Qed.

End Painting.

(** ** Reachable components and the two revisions *)

Section Reachable.

Import Display.
Local Open Scope R_scope.

(** X7.  Whatever happens to a component after [ngOnInit], its pending
    flag agrees with the frame queue, its colour table is empty or has 256
    entries, and a call of [render] does not end in an exception and
    leaves no render pending. *)
Theorem reachable_render_completes (w h heading : R) (m : RadarDisplayMode)
    (es : list Event) :
  let c := run (ngOnInit w h heading m) es in
  wellFormed c /\
  pendingRender (fst (render c)) = false /\
  (snd (render c) = Skipped \/ exists ops, snd (render c) = Pass ops).
Proof.
  intros c. pose proof (run_wellFormed w h heading m es) as Hwf.
  fold c in Hwf. clearbody c. split; [exact Hwf|].
  destruct Hwf as [_ Ht].
  destruct (render_wellFormed c Ht) as (Hp & _). split; [exact Hp|].
  destruct (config c) as [cfg|] eqn:Hcfg.
  - destruct Ht as [Ht|Ht].
    + left. unfold render, ready. by rewrite Hcfg, Ht.
    + right. rewrite (render_result c cfg Hcfg Ht). by eexists.
  - left. unfold render. by rewrite Hcfg.
Qed.

(** X8.  The two revisions agree on a spoke taken at the displayed range:
    for a spoke with samples whose range is the non-zero range of the
    configuration, the previous revision paints on arrival exactly the
    wedge that the current revision paints for it in a pass. *)
Theorem revisions_agree_at_displayed_range (c : Component)
    (cfg : RadarConfig) (s : RadarSpoke) :
  config c = Some cfg ->
  length (legendRGBA c) = 256%nat ->
  data s <> [] ->
  cfg_range cfg <> 0 ->
  range s = cfg_range cfg ->
  Legacy.drawSpoke c s =
    Legacy.Painted (fst (renderSingleSpoke c cfg (angle s) (data s))).
Proof.
  intros Hcfg Hl Hd Hr Hs.
  assert (Hsc : Legacy.scaledPixelsPerDataPoint c cfg s
                = scaledPixelsPerDataPoint c (data s)).
  { rewrite legacy_rescale, nonzero_true by done.
    unfold scaledPixelsPerDataPoint. rewrite Hs. field. exact Hr. }
  pose proof (paintSamples_ok (legendRGBA c)
                (scaledPixelsPerDataPoint c (data s)) 0 (data s) Hl) as Hok.
  unfold Legacy.drawSpoke, ready, renderSingleSpoke. rewrite Hcfg, Hsc.
  destruct (legendRGBA c) as [|rgba table]; [discriminate Hl|].
  destruct (paintSamples _ _ _ _) as [ops ok]. simpl in Hok. subst ok.
  by destruct (data s).
Qed.

Lemma revisions_agree_at_displayed_range_witness :
  config smallDisplay = Some smallConfig /\
  length (legendRGBA smallDisplay) = 256%nat /\
  data (mkSpoke 1 None 1852 [x01]%byte) <> [] /\
  cfg_range smallConfig <> 0 /\
  range (mkSpoke 1 None 1852 [x01]%byte) = cfg_range smallConfig /\
  Legacy.drawSpoke smallDisplay (mkSpoke 1 None 1852 [x01]%byte) =
    Legacy.Painted
      (fst (renderSingleSpoke smallDisplay smallConfig 1 [x01]%byte)).
Proof.
  assert (H1 : data (mkSpoke 1 None 1852 [x01]%byte) <> []) by discriminate.
  assert (H2 : cfg_range smallConfig <> 0) by (simpl; lra).
  split; [reflexivity|]. split; [reflexivity|]. split; [exact H1|].
  split; [exact H2|]. split; [reflexivity|].
  exact (revisions_agree_at_displayed_range smallDisplay smallConfig
           (mkSpoke 1 None 1852 [x01]%byte) eq_refl eq_refl H1 H2 eq_refl).
Defined.

End Reachable.

(** ** Colour strings *)

Section Colours.

Local Open Scope Z_scope.

Lemma ascii_all (P : ascii -> bool) :
  forallb P allAscii = true -> forall a, P a = true.
Proof.
  intros H a. rewrite forallb_forall in H. apply H.
  rewrite <- (ascii_nat_embedding a). apply in_map, in_seq.
  pose proof (nat_ascii_bounded a). lia.
Qed.

Lemma hexDigit_range (a : ascii) (v : Z) :
  Js.hexDigit a = Some v -> 0 <= v <= 15.
Proof.
  assert (Hall : forallb digitInRange allAscii = true)
    by (vm_compute; reflexivity).
  pose proof (ascii_all _ Hall a) as H. unfold digitInRange in H.
  intros Hv. rewrite Hv in H. lia.
Qed.

Lemma channelEq_eq x y : channelEq x y = true -> x = y.
Proof.
  destruct x, y; simpl; try discriminate; [|done].
  intros H. f_equal. lia.
Qed.

Lemma parseInt16_pair (a b : ascii) (va vb : Z) :
  Js.hexDigit a = Some va -> Js.hexDigit b = Some vb ->
  Js.parseInt16 (String a (String b EmptyString)) = Some (16 * va + vb).
Proof.
  assert (Hall : forallb (fun a => forallb (pairParses a) allAscii) allAscii
                 = true) by (vm_compute; reflexivity).
  pose proof (ascii_all _ Hall a) as Ha. cbv beta in Ha.
  pose proof (ascii_all _ Ha b) as Hb. unfold pairParses in Hb.
  intros Hva Hvb. rewrite Hva, Hvb in Hb. by apply channelEq_eq.
Qed.

(** X9.  A colour written as a first character followed by six
    hexadecimal digits, of either case, parses to its three channels and
    alpha 255; with eight digits the fourth pair is the alpha.  Every
    channel is a byte. *)
Theorem hexToRGBA_hex_digits (h r1 r2 g1 g2 b1 b2 : ascii)
    (vr1 vr2 vg1 vg2 vb1 vb2 : Z) :
  Js.hexDigit r1 = Some vr1 -> Js.hexDigit r2 = Some vr2 ->
  Js.hexDigit g1 = Some vg1 -> Js.hexDigit g2 = Some vg2 ->
  Js.hexDigit b1 = Some vb1 -> Js.hexDigit b2 = Some vb2 ->
  let rgb (rest : string) :=
    String r1 (String r2 (String g1 (String g2 (String b1 (String b2 rest)))))
  in
  hexToRGBA (String h (rgb EmptyString)) =
    [Some (16 * vr1 + vr2); Some (16 * vg1 + vg2); Some (16 * vb1 + vb2);
     Some 255] /\
  (forall a1 a2 va1 va2,
     Js.hexDigit a1 = Some va1 -> Js.hexDigit a2 = Some va2 ->
     hexToRGBA (String h (rgb (String a1 (String a2 EmptyString)))) =
       [Some (16 * vr1 + vr2); Some (16 * vg1 + vg2); Some (16 * vb1 + vb2);
        Some (16 * va1 + va2)] /\
     0 <= 16 * va1 + va2 <= 255) /\
  0 <= 16 * vr1 + vr2 <= 255 /\
  0 <= 16 * vg1 + vg2 <= 255 /\
  0 <= 16 * vb1 + vb2 <= 255.
Proof.
  intros Hr1 Hr2 Hg1 Hg2 Hb1 Hb2 rgb. subst rgb.
  pose proof (hexDigit_range _ _ Hr1). pose proof (hexDigit_range _ _ Hr2).
  pose proof (hexDigit_range _ _ Hg1). pose proof (hexDigit_range _ _ Hg2).
  pose proof (hexDigit_range _ _ Hb1). pose proof (hexDigit_range _ _ Hb2).
  split; [|split; [|lia]].
  - unfold hexToRGBA. cbn [String.length hexPairs].
    rewrite (parseInt16_pair _ _ _ _ Hr1 Hr2), (parseInt16_pair _ _ _ _ Hg1 Hg2),
      (parseInt16_pair _ _ _ _ Hb1 Hb2).
    reflexivity.
  - intros a1 a2 va1 va2 Ha1 Ha2.
    pose proof (hexDigit_range _ _ Ha1). pose proof (hexDigit_range _ _ Ha2).
    split; [|lia].
    unfold hexToRGBA. cbn [String.length hexPairs].
    rewrite (parseInt16_pair _ _ _ _ Hr1 Hr2), (parseInt16_pair _ _ _ _ Hg1 Hg2),
      (parseInt16_pair _ _ _ _ Hb1 Hb2), (parseInt16_pair _ _ _ _ Ha1 Ha2).
    reflexivity.
Qed.

Lemma hexToRGBA_hex_digits_witness :
  Js.hexDigit "f" = Some 15 /\ Js.hexDigit "0" = Some 0 /\
  hexToRGBA "#ff0000" = [Some 255; Some 0; Some 0; Some 255].
Proof.
  split; [reflexivity|]. split; [reflexivity|].
  exact (proj1 (hexToRGBA_hex_digits "#" "f" "f" "0" "0" "0" "0"
                  15 15 0 0 0 0 eq_refl eq_refl eq_refl eq_refl eq_refl
                  eq_refl)).
Defined.

Lemma length_hexPairs (fuel : nat) (s : string) :
  (String.length s <= fuel)%nat ->
  length (hexPairs fuel s) = ((String.length s + 1) / 2)%nat.
Proof.
  revert s. induction fuel as [fuel IH] using lt_wf_ind. intros s Hs.
  destruct fuel as [|fuel]; [destruct s; [reflexivity|simpl in Hs; lia]|].
  destruct s as [|a [|b r]]; [reflexivity|reflexivity|].
  cbn [hexPairs String.length length].
  rewrite (IH fuel) by (simpl in Hs; lia).
  replace (S (S (String.length r)) + 1)%nat
    with (String.length r + 1 + 1 * 2)%nat by lia.
  rewrite Nat.div_add by lia. lia.
Qed.

Lemma length_padRGBA_max (rgba : list (option Z)) :
  length (padRGBA 4 rgba) = Nat.max 4 (length rgba).
Proof.
  destruct rgba as [|a [|b [|c [|d rest]]]]; simpl; lia.
Qed.

(** X10.  A colour string of [n] characters expands to [n / 2] channels,
    and to four when that is less: up to nine characters give exactly
    four channels, longer strings give more. *)
Theorem length_hexToRGBA_exact (hex : string) :
  length (hexToRGBA hex) = Nat.max 4 (String.length hex / 2).
Proof.
  unfold hexToRGBA. rewrite length_padRGBA_max, length_hexPairs by lia.
  destruct hex as [|h body]; [reflexivity|].
  cbn [String.length]. do 2 f_equal. lia.
Qed.

End Colours.

(** ** Labels of whole ranges *)

Section Labels.

Local Open Scope Z_scope.

Lemma forallb_seqZ (P : Z -> bool) (lo len : Z) :
  forallb P (seqZ lo len) = true ->
  forall k, lo <= k < lo + len -> P k = true.
Proof.
  intros H k Hk. rewrite forallb_forall in H. apply H.
  apply list_elem_of_In, elem_of_seqZ. lia.
Qed.

(** X11.  A range of a whole number of nautical miles, from 1 to 2000,
    is labelled with that number and "nm", without decimals. *)
Theorem whole_miles_label (k : Z) :
  1 <= k <= 2000 ->
  formatRange (Js.ofZ (1852 * k)) = (Js.decimal k ++ " nm")%string.
Proof.
  intros Hk.
  assert (Hall : forallb milesLabelOk (seqZ 1 2000) = true)
    by (vm_compute; reflexivity).
  apply String.eqb_eq.
  apply (forallb_seqZ milesLabelOk 1 2000 Hall). lia.
Qed.

Lemma whole_miles_label_witness :
  1 <= 12 <= 2000 /\
  formatRange (Js.ofZ (1852 * 12)) = "12 nm"%string.
Proof.
  assert (H : 1 <= 12 <= 2000) by lia.
  split; [exact H|]. exact (whole_miles_label 12 H).
Defined.

(** X12.  Below one kilometre the label is in whole metres, a half
    rounding up: for [m] from 0 to 999, [m] metres are labelled "m m" and
    [m + 0.5] metres are labelled with [m + 1], so that 999.5 metres are
    labelled "1000 m". *)
Theorem whole_metres_label (m : Z) :
  0 <= m <= 999 ->
  formatRange (Js.ofZ m) = (Js.decimal m ++ " m")%string /\
  formatRange (PrimFloat.add (Js.ofZ m) 0.5)
    = (Js.decimal (m + 1) ++ " m")%string.
Proof.
  intros Hm.
  assert (Hall : forallb metresLabelOk (seqZ 0 1000) = true)
    by (vm_compute; reflexivity).
  pose proof (forallb_seqZ metresLabelOk 0 1000 Hall m) as H.
  unfold metresLabelOk in H.
  apply andb_true_iff in H; [|lia].
  destruct H as [H1 H2]. split; by apply String.eqb_eq.
Qed.

Lemma whole_metres_label_witness :
  0 <= 999 <= 999 /\
  formatRange (PrimFloat.add (Js.ofZ 999) 0.5) = "1000 m"%string.
Proof.
  assert (H : 0 <= 999 <= 999) by lia.
  split; [exact H|]. exact (proj2 (whole_metres_label 999 H)).
Defined.

End Labels.

(** ** The heading of the map layer *)

Section LayerHeading.

Local Open Scope R_scope.

(** X13.  The map layer takes its heading input in radians: it stores the
    heading in degrees and turns it back when it paints, so that the
    wedge of a bin is rotated by the bin's angle less the heading input
    itself. *)
Theorem layer_heading_round_trip (cfg : RadarConfig) (heading : R) (a : Z) :
  Layer.finalAngle cfg (Layer.shipHeading heading) a
    = Display.angleRad cfg a - heading.
Proof.
  unfold Layer.finalAngle, Layer.shipHeading, Display.angleRad,
    Display.adjustedAngle. cbv zeta.
  replace (heading * (180 / PI) * PI / 180) with heading
    by (field; apply PI_neq0).
  reflexivity.
Qed.

End LayerHeading.

(** ** The life of a connection *)

Section Connection.

Import Service.
Local Open Scope string_scope.

(** X14.  [disconnect] is idempotent. *)
Theorem disconnect_idempotent (st : State) :
  disconnect (disconnect st) = disconnect st.
Proof.
  destruct st as [ws cd cg rc cr so ti er pu]. unfold disconnect. simpl.
  destruct ws as [k|]; simpl; [|reflexivity].
  destruct (so !! k); reflexivity.
Qed.


Lemma ownProperty_head (k : string) (e : RadarEntry) (rest : Radars) :
  ownProperty ((k, e) :: rest) k = Some e.
Proof. simpl. by rewrite String.eqb_refl. Qed.

Lemma lookupRadar_head (k : string) (e : RadarEntry) (rest : Radars) :
  lookupRadar ((k, e) :: rest) k = Own e.
Proof. unfold lookupRadar. by rewrite ownProperty_head. Qed.





(** X16.  Called without an identifier, or with the empty string, a
    [connectToRadar] that gets past its guard takes the first radar of
    the discovery response: the current radar has the fields of that
    entry, under the identifier the entry carries or else its key.  When
    the browser takes the address of its stream, one socket goes there
    and the call awaits it; when the constructor throws, the call throws
    the same and no socket exists.  When the response has no radar the
    call throws "No radars available" and constructs no socket. *)
Theorem connect_without_id (st : State) (now : Z) (radarId : option string)
    (radars : Radars) (construct : WebSocketConstructor) :
  connecting st = false -> connected st = false ->
  radarId = None \/ radarId = Some "" ->
  let r := connectToRadar st now radarId (Discovered radars) construct in
  match radars with
  | [] =>
      snd r = Threw (ErrorObj "Error" "No radars available") /\
      sockets (fst r) = sockets st /\ connecting (fst r) = false
  | (k, e) :: _ =>
      currentRadar (fst r) =
        Some (mkInfo (default k (entry_id e)) (name (entry e))
                (streamUrl (entry e)) (controlUrl (entry e))
                (info_spokes (entry e)) (info_maxSpokeLen (entry e))
                (info_legend (entry e))) /\
      match construct (streamUrl (entry e)) with
      | None =>
          snd r = Awaiting /\
          sockets (fst r)
            = (sockets st
                 ++ [mkSocket (streamUrl (entry e)) false false])%list /\
          connecting (fst r) = true
      | Some t =>
          snd r = Threw t /\
          sockets (fst r) = sockets st /\
          timers (fst r) = timers st /\
          connecting (fst r) = false
      end
  end.
Proof.
  intros Hc1 Hc2 Hid r. subst r. rewrite connectToRadar_idle by done.
  unfold connectToRadar_resume.
  replace (explicitId radarId) with (@None string)
    by (by destruct Hid as [-> | ->]).
  destruct radars as [|[k e] rest]; [done|].
  cbn [keys map fst head]. rewrite lookupRadar_head.
  unfold connectWebSocket. cbn [streamUrl].
  destruct (construct (streamUrl (entry e))) as [t|]; simpl; done.
Qed.

Lemma connect_without_id_witness :
  connecting initial = false /\ connected initial = false /\
  (Some "" = None \/ Some "" = Some "") /\
  option_map id (currentRadar (fst emptyIdCall)) = Some "radar-0".
Proof.
  assert (H : Some "" = None \/ Some "" = Some "") by (by right).
  split; [reflexivity|]. split; [reflexivity|]. split; [exact H|].
  unfold emptyIdCall.
  rewrite (proj1 (connect_without_id initial 0 (Some "") sampleRadars
                    accepting eq_refl eq_refl H)).
  reflexivity.
Defined.



(** X17.  An error event of a socket puts "WebSocket connection error" on
    the error channel and lowers the connecting flag; while the promise of
    that socket is unsettled it also fails the call that awaits it, with a
    second message.  It leaves the connected flag as it was: after an
    error on an open socket the client still shows connected. *)
Theorem onerror_accounting (st : State) (k : nat) :
  let st' := onerror st k in
  connected st' = connected st /\
  connecting st' = false /\
  webSocket st' = webSocket st /\
  timers st' = timers st /\
  length (sockets st') = length (sockets st) /\
  errors st' =
    (errors st ++ "WebSocket connection error"
       :: match sockets st !! k with
          | Some s =>
              if settled s then []
              else ["Failed to connect to radar: [object Event]"]
          | None => []
          end)%list.
Proof.
  destruct st as [ws cd cg rc cr so ti er pu].
  unfold onerror, rejectSocket. simpl.
  destruct (so !! k) as [s|] eqn:Hs; simpl.
  - destruct (settled s); simpl.
    + by rewrite ?app_nil_r.
    + rewrite length_insert, <- app_assoc. done.
  - done.
Qed.

(** X18.  The ten-second timer of a socket whose promise is settled, when
    it fires while the client is connecting (on behalf of a later socket),
    lowers the connecting flag and reports nothing: no message reaches the
    error channel and no socket is touched. *)
Theorem stale_timeout_clears_connecting (st : State) (i k : nat) (t : Timer)
    (s : Socket) :
  timers st !! i = Some t ->
  action t = ConnectTimeout k ->
  sockets st !! k = Some s ->
  settled s = true ->
  connecting st = true ->
  let st' := fst (fireTimer st i) in
  connecting st' = false /\
  errors st' = errors st /\
  sockets st' = sockets st /\
  webSocket st' = webSocket st /\
  connected st' = connected st.
Proof.
  intros Ht Ha Hs Hset Hc. unfold fireTimer. rewrite Ht. unfold runTimer.
  rewrite Ha. simpl. rewrite Hc. unfold rejectSocket. simpl.
  rewrite Hs, Hset. done.
Qed.

Lemma stale_timeout_clears_connecting_witness :
  timers secondAttempt !! 0%nat = Some (mkTimer 10000 (ConnectTimeout 0)) /\
  sockets secondAttempt !! 0%nat
    = Some (mkSocket "ws://localhost:3001/v1/api/stream/radar-0" true false) /\
  connecting secondAttempt = true /\
  webSocket secondAttempt = Some 1%nat /\
  connecting (fst (fireTimer secondAttempt 0)) = false.
Proof.
  split; [reflexivity|]. split; [reflexivity|]. split; [reflexivity|].
  split; [reflexivity|].
  exact (proj1 (stale_timeout_clears_connecting secondAttempt 0 0
                  (mkTimer 10000 (ConnectTimeout 0))
                  (mkSocket "ws://localhost:3001/v1/api/stream/radar-0"
                     true false)
                  eq_refl eq_refl eq_refl eq_refl eq_refl)).
Defined.

End Connection.

(** ** Reconnection and what every run keeps *)

Section Runs.

Import Service.
Local Open Scope string_scope.

Lemma delete_last {A : Type} (l : list A) (x : A) :
  delete (length l) (l ++ [x])%list = l.
Proof.
  induction l as [|a l IH]; [reflexivity|]. simpl. by rewrite IH.
Qed.

Lemma lookup_last {A : Type} (l : list A) (x : A) :
  (l ++ [x])%list !! length l = Some x.
Proof. by rewrite list_lookup_middle. Qed.

(** X19.  After a closure of the stream, when the reconnect timer it set
    fires with a current radar still recorded, the client goes back to
    connecting and asks for that radar by its identifier; when the
    discovery response still has it, the configuration is published again
    with range 1852, whatever range was published before, and one socket
    is constructed to the stream of that entry, unless the constructor
    throws: then the call throws the same, no socket exists and the
    client is no longer connecting. *)
Theorem reconnect_reopens (st : State) (now now' : Z) (ev : CloseEvent)
    (r : RadarServerInfo) (radars : Radars) (e : RadarEntry)
    (construct : WebSocketConstructor) :
  currentRadar st = Some r ->
  id r <> "" ->
  lookupRadar radars (id r) = Own e ->
  let closed := onclose st now ev in
  exists waiting,
    fireTimer closed (length (timers st)) = (waiting, Some (id r)) /\
    connecting waiting = true /\
    timers waiting = timers st /\
    let opened := connectToRadar_resume waiting now' (Some (id r))
                    (Discovered radars) construct in
    radarConfig (fst opened) =
      Some (mkConfig (info_spokes (entry e)) (info_maxSpokeLen (entry e))
              (info_legend (entry e)) 1852) /\
    match construct (streamUrl (entry e)) with
    | None =>
        snd opened = Awaiting /\
        sockets (fst opened)
          = (sockets st
               ++ [mkSocket (streamUrl (entry e)) false false])%list /\
        connecting (fst opened) = true
    | Some t =>
        snd opened = Threw t /\
        sockets (fst opened) = sockets st /\
        timers (fst opened) = timers st /\
        connecting (fst opened) = false
    end.
Proof.
  intros Hr Hid He closed. subst closed.
  destruct st as [ws cd cg rc cr so ti er pu]. simpl in Hr. subst cr.
  unfold fireTimer, onclose. simpl.
  rewrite lookup_last, delete_last. simpl.
  eexists. split; [reflexivity|]. split; [reflexivity|].
  split; [reflexivity|].
  unfold connectToRadar_resume, explicitId.
  destruct (id r) as [|ch rest]; [done|].
  rewrite He. unfold connectWebSocket. cbn [streamUrl].
  destruct (construct (streamUrl (entry e))) as [t|]; simpl; done.
Qed.

Lemma reconnect_reopens_witness :
  currentRadar connectedClient
    = Some (mkInfo "radar-0" "HALO" "ws://localhost:3001/v1/api/stream/radar-0"
              "ws://localhost:3001/v1/api/control/radar-0" 2048 1024
              sampleLegend) /\
  "radar-0" <> "" /\
  snd (fireTimer (onclose connectedClient 1000 cleanClose)
         (length (timers connectedClient))) = Some "radar-0".
Proof.
  assert (H : "radar-0" <> "") by discriminate.
  split; [reflexivity|]. split; [exact H|].
  destruct (reconnect_reopens connectedClient 1000 7000 cleanClose _
              sampleRadars _ refusing eq_refl H eq_refl)
    as (waiting & Hf & _).
  by rewrite Hf.
Defined.








End Runs.

(** ** Placement on the chart, and the guard after a configuration *)

Section Placement.

Import Display.
Local Open Scope R_scope.

(** X21.  In integrated mode with a boat position, map bounds that are
    not degenerate and a non-zero scale, the centre of the sweep follows
    the position across the canvas: a boat on the west edge of the map
    view is drawn at x = 0, on the east edge at x = width, on the north
    edge at y = 0 and on the south edge at y = height; and with a
    configuration the radius is the displayed range in pixels, times
    [RANGE_SCALE]. *)
Theorem integrated_centre_follows_bounds (c : Component) (mb : Bounds)
    (lon lat ppm : R) :
  overlay (displayMode c) = false ->
  centerPosition (displayMode c) = Some (lon, lat) ->
  mapBounds (displayMode c) = Some mb ->
  pixelsPerMeter (displayMode c) = Some ppm ->
  ppm <> 0 -> east mb <> west mb -> north mb <> south mb ->
  let c' := updateCenterAndRadius c in
  (lon = west mb -> centerX c' = 0) /\
  (lon = east mb -> centerX c' = width c) /\
  (lat = north mb -> centerY c' = 0) /\
  (lat = south mb -> centerY c' = height c) /\
  (forall cfg, config c = Some cfg ->
               maxRadius c' = cfg_range cfg * ppm * RANGE_SCALE).
Proof.
  intros Ho Hp Hb Hs Hppm Hew Hns c'. subst c'.
  unfold updateCenterAndRadius. rewrite Ho, Hp, Hb, Hs.
  rewrite nonzero_true by done. simpl.
  repeat split.
  - intros ->. field. lra.
  - intros ->. field. lra.
  - intros ->. field. lra.
  - intros ->. field. lra.
  - by intros cfg ->.
Qed.

Lemma integrated_centre_follows_bounds_witness :
  overlay cornerMode = false /\
  2 <> 0 /\ 20 <> 10 /\ 50 <> 40 /\
  centerX (updateDisplayMode configured cornerMode) = 0.
Proof.
  assert (H1 : 2 <> 0) by lra. assert (H2 : 20 <> 10) by lra.
  assert (H3 : 50 <> 40) by lra.
  split; [reflexivity|]. split; [exact H1|]. split; [exact H2|].
  split; [exact H3|].
  exact (proj1 (integrated_centre_follows_bounds
                  (set_displayMode configured cornerMode)
                  (mkBounds 50 40 20 10) 10 50 2
                  eq_refl eq_refl eq_refl eq_refl H1 H2 H3) eq_refl).
Defined.

Lemma render_keeps_guard c : ready (fst (render c)) = ready c.
Proof.
  unfold render. destruct (config c) as [cfg|]; [|reflexivity].
  destruct (ready c) eqn:Hr; [|exact Hr].
  destruct (renderSpokes c cfg (seqZ 0 (spokes cfg))) as [ops ok].
  by destruct ok.
Qed.

Lemma runFrameCallbacks_keeps_guard n c :
  ready (fst (runFrameCallbacks n c)) = ready c.
Proof.
  revert c. induction n as [|n IH]; intros c; [reflexivity|].
  simpl. pose proof (render_keeps_guard c) as Hr.
  destruct (render c) as [c1 r]. specialize (IH c1).
  destruct (runFrameCallbacks n c1) as [c2 rs]. simpl in *. congruence.
Qed.

Lemma step_keeps_guard c e : ready c = true -> ready (step c e) = true.
Proof.
  intros Hr. destruct e as [cfg|m|h|s|]; simpl.
  - destruct (setRadarConfig_fields c cfg) as (Hcfg & Hl & _).
    unfold ready. rewrite Hcfg, Hl.
    pose proof (length_expandLegend (legend cfg)) as Hlen.
    by destruct (expandLegend (legend cfg)).
  - unfold updateDisplayMode.
    destruct (updateCenterAndRadius_frame (set_displayMode c m))
      as (Hl & _ & _ & Hcfg).
    unfold ready. by rewrite Hl, Hcfg.
  - exact Hr.
  - by rewrite drawSpoke_ready.
  - unfold animationFrame. by rewrite runFrameCallbacks_keeps_guard.
Qed.

(** X22.  From the first [setRadarConfig] on, whatever its bin count and
    whatever happens afterwards, the guard of [drawSpoke] lets every
    spoke through: the spoke's samples are in the buffer under its
    angle. *)
Theorem configured_never_drops (c : Component) (cfg : RadarConfig)
    (es : list Event) (s : RadarSpoke) :
  let c' := run (step c (SetRadarConfig cfg)) es in
  ready c' = true /\
  spokeDataBuffer (drawSpoke c' s) !! angle s = Some (data s).
Proof.
  intros c'. assert (Hr : ready c' = true).
  { subst c'. induction es as [|e es IH] using rev_ind.
    - simpl. destruct (setRadarConfig_fields c cfg) as (Hcfg & Hl & _).
      unfold ready. rewrite Hcfg, Hl.
      pose proof (length_expandLegend (legend cfg)) as Hlen.
      by destruct (expandLegend (legend cfg)).
    - unfold run. rewrite foldl_app. simpl. by apply step_keeps_guard. }
  split; [exact Hr|].
  rewrite drawSpoke_buffer by done. by rewrite lookup_insert_eq.
Qed.

End Placement.

(** ** Labels with one decimal *)

Section Decimals.

Local Open Scope Z_scope.

(** X23.  From 1000 to 1851 whole metres the label is in kilometres with
    one decimal, from "1.0 km" to "1.9 km", and the value it shows is
    within 50 metres of the range. *)
Theorem kilometre_label (m : Z) :
  1000 <= m <= 1851 ->
  exists tenths,
    10 <= tenths <= 19 /\
    formatRange (Js.ofZ m) = oneDecimal tenths " km" /\
    Z.abs (m - 100 * tenths) <= 50.
Proof.
  intros Hm.
  assert (Hall : forallb kmLabelOk (seqZ 1000 852) = true)
    by (vm_compute; reflexivity).
  pose proof (forallb_seqZ kmLabelOk 1000 852 Hall m ltac:(lia)) as H.
  unfold kmLabelOk in H. cbv zeta in H.
  apply existsb_exists in H as (t & _ & Hok).
  apply andb_true_iff in Hok as [H1 H2].
  exists t. split; [lia|]. split; [by apply String.eqb_eq|lia].
Qed.

Lemma kilometre_label_witness :
  1000 <= 1500 <= 1851 /\
  exists tenths,
    10 <= tenths <= 19 /\
    formatRange (Js.ofZ 1500) = oneDecimal tenths " km" /\
    Z.abs (1500 - 100 * tenths) <= 50.
Proof.
  assert (H : 1000 <= 1500 <= 1851) by lia.
  split; [exact H|]. exact (kilometre_label 1500 H).
Defined.

(** X24.  From 1852 to 20000 whole metres the label is in nautical
    miles, and the value it shows is within a twentieth of a mile of the
    range: a whole number when the range is a whole number of miles, one
    decimal otherwise (a range that only rounds to a whole number keeps
    its ".0"). *)
Theorem nautical_label (m : Z) :
  1852 <= m <= 20000 ->
  exists tenths,
    10 <= tenths <= 109 /\
    formatRange (Js.ofZ m)
      = (if m =? 1852 * (tenths / 10)
         then (Js.decimal (tenths / 10) ++ " nm")%string
         else oneDecimal tenths " nm") /\
    Z.abs (10 * m - 1852 * tenths) <= 926.
Proof.
  intros Hm.
  assert (Hall : forallb nmLabelOk (seqZ 1852 18149) = true)
    by (vm_compute; reflexivity).
  pose proof (forallb_seqZ nmLabelOk 1852 18149 Hall m ltac:(lia)) as H.
  unfold nmLabelOk in H. cbv zeta in H.
  apply existsb_exists in H as (t & _ & Hok).
  apply andb_true_iff in Hok as [H1 H2].
  exists t. split; [lia|]. split; [by apply String.eqb_eq|lia].
Qed.

Lemma nautical_label_witness :
  1852 <= 3700 <= 20000 /\
  exists tenths,
    10 <= tenths <= 109 /\
    formatRange (Js.ofZ 3700)
      = (if 3700 =? 1852 * (tenths / 10)
         then (Js.decimal (tenths / 10) ++ " nm")%string
         else oneDecimal tenths " nm") /\
    Z.abs (10 * 3700 - 1852 * tenths) <= 926.
Proof.
  assert (H : 1852 <= 3700 <= 20000) by lia.
  split; [exact H|]. exact (nautical_label 3700 H).
Defined.

End Decimals.
